(** * rss_everyday: the feed pipeline of [main.go]

    A shallow embedding of the program's window computation, feed
    filtering, delivery stage and goroutine pipeline, with the
    properties of its specification stated against it.

    Conventions.
    - Go's [int64] values are [Z] with the two's-complement wrap-around
      written out ([wrap64]) at every arithmetic operation of [main.go].
    - A [*T] pointer is an [option T]; [nil] is [None].
    - The external collaborators (feed parser, Telegram client, wall
      clock) are fields of a [World] record.
    - Everything the program does to the outside (log lines, sends,
      sleeps) is recorded as a list of [Event]s in program order. *)

From Stdlib Require Import ZArith List String Ascii Bool Lia Permutation.
From AAC_tactics Require Import AAC.
From AAC_tactics Require Instances.
Import ListNotations.
Import Instances.Lists.

Local Open Scope string_scope.
Local Open Scope list_scope.
Local Open Scope Z_scope.

(* ================================================================= *)
(** ** Machine integers *)

Definition wrap64 (z : Z) : Z := (z + 2 ^ 63) mod 2 ^ 64 - 2 ^ 63.

Definition int64_mul (a b : Z) : Z := wrap64 (a * b).
Definition int64_neg (a : Z) : Z := wrap64 (- a).

Definition in_int64 (z : Z) : Prop := - 2 ^ 63 <= z < 2 ^ 63.

(* ================================================================= *)
(** ** The [time] package, for instants in UTC

    [main.go] only handles instants in UTC ([time.Now().UTC()], and the
    parser's timestamps through [Unix()]), so a [Time] is the pair the
    library keeps after [UTC()]: whole seconds since January 1 of year 1,
    00:00:00 UTC, and the nanoseconds within the second. The calendar is
    the proleptic Gregorian one. Seconds are unbounded integers: what
    the library does at the limits of its own range, billions of years
    away, is not modelled. [HourOf], [SecondOf] and [NanosecondOf] are
    the methods [Hour], [Second] and [Nanosecond] of a [Time]; the
    plain names are the duration constants. *)

Module GoTime.

Record Time : Type := mkTime { tsec : Z; tnsec : Z }.

(** [time.Duration] is an [int64] count of nanoseconds. *)
Definition Nanosecond : Z := 1.
Definition Second : Z := 1000000000.
Definition Hour : Z := 3600 * Second.

Definition secondsPerDay : Z := 86400.

(** Days from 0001-01-01 to 1970-01-01, and the library's constant. *)
Definition unixToInternal : Z :=
  (1969 * 365 + 1969 / 4 - 1969 / 100 + 1969 / 400) * secondsPerDay.

Definition Unix (t : Time) : Z := tsec t - unixToInternal.

Definition IsZero (t : Time) : bool := (tsec t =? 0) && (tnsec t =? 0).

(** [t.Add(d)]: the quotient and remainder are Go's truncating ones. *)
Definition Add (t : Time) (d : Z) : Time :=
  let dsec := Z.quot d 1000000000 in
  let nsec := tnsec t + Z.rem d 1000000000 in
  if 1000000000 <=? nsec then mkTime (tsec t + (dsec + 1)) (nsec - 1000000000)
  else if nsec <? 0 then mkTime (tsec t + (dsec - 1)) (nsec + 1000000000)
  else mkTime (tsec t + dsec) nsec.

(** Civil date of a day number (day 0 is 0001-01-01), by 400-year
    eras that start on March 1. *)
Definition daysPerEra : Z := 146097.

Definition yearOfEra (doe : Z) : Z :=
  (doe - doe / 1460 + doe / 36524 - doe / 146096) / 365.

Definition dayOfYear (doe : Z) : Z :=
  let yoe := yearOfEra doe in doe - (365 * yoe + yoe / 4 - yoe / 100).

Definition civil (day : Z) : Z * Z * Z :=
  let z := day + 306 in
  let era := z / daysPerEra in
  let doe := z mod daysPerEra in
  let yoe := yearOfEra doe in
  let doy := dayOfYear doe in
  let mp := (5 * doy + 2) / 153 in
  let d := doy - (153 * mp + 2) / 5 + 1 in
  let m := if mp <? 10 then mp + 3 else mp - 9 in
  let y := yoe + era * 400 in
  (if m <=? 2 then y + 1 else y, m, d).

(** Day number of a civil date; the month may lie outside 1..12 and
    the day outside the month, and both are carried over as
    [time.Date] does. *)
Definition dayNumber (year month day : Z) : Z :=
  let y0 := year + (month - 1) / 12 in
  let m := (month - 1) mod 12 + 1 in
  let y := if m <=? 2 then y0 - 1 else y0 in
  let era := y / 400 in
  let yoe := y mod 400 in
  let mp := if 2 <? m then m - 3 else m + 9 in
  let doy := (153 * mp + 2) / 5 + day - 1 in
  let doe := yoe * 365 + yoe / 4 - yoe / 100 + doy in
  era * daysPerEra + doe - 306.

Definition absDay (t : Time) : Z := tsec t / secondsPerDay.

Definition Year (t : Time) : Z := fst (fst (civil (absDay t))).
Definition Month (t : Time) : Z := snd (fst (civil (absDay t))).
Definition Day (t : Time) : Z := snd (civil (absDay t)).
Definition HourOf (t : Time) : Z := (tsec t mod secondsPerDay) / 3600.
Definition Minute (t : Time) : Z := (tsec t mod 3600) / 60.
Definition SecondOf (t : Time) : Z := tsec t mod 60.
Definition NanosecondOf (t : Time) : Z := tnsec t.

(** [time.Date(year, month, day, hour, min, sec, nsec, time.UTC)]. *)
Definition Date (year month day hour min sec nsec : Z) : Time :=
  mkTime (dayNumber year month day * secondsPerDay
          + hour * 3600 + min * 60 + sec + nsec / 1000000000)
         (nsec mod 1000000000).

End GoTime.

Import GoTime.

(** The instant that lies [ns] nanoseconds after the Unix epoch, as
    [time.Unix(0, ns).UTC()] builds it; the wall clock is read in this
    form. *)
Definition timeOfUnixNano (ns : Z) : Time :=
  mkTime (unixToInternal + ns / 1000000000) (ns mod 1000000000).

(* ================================================================= *)
(** ** Strings and formatting *)

Definition nl : string := String (ascii_of_nat 10) EmptyString.

(** [fmt.Sprintf] for the verbs the program uses, [%s] and [%v], on
    operands that are strings (an [error] is its message). *)
Fixpoint Sprintf (format : string) (args : list string) : string :=
  match format with
  | EmptyString => EmptyString
  | String c tl =>
      match tl with
      | String v rest =>
          if Ascii.eqb c "%" && (Ascii.eqb v "s" || Ascii.eqb v "v") then
            match args with
            | a :: args' => (a ++ Sprintf rest args')%string
            | [] => ("%!" ++ String v "(MISSING)" ++ Sprintf rest [])%string
            end
          else String c (Sprintf tl args)
      | EmptyString => String c EmptyString
      end
  end.

(** [fmt.Sprintln]: operands separated by spaces, newline appended. *)
Definition Sprintln (args : list string) : string :=
  (String.concat " " args ++ nl)%string.

(** [strings.HasSuffix]. *)
Definition HasSuffix (s suffix : string) : bool :=
  let n := String.length s in
  let m := String.length suffix in
  (m <=? n)%nat && String.eqb (substring (n - m) m s) suffix.

(* ================================================================= *)
(** ** Data model *)

Inductive result (A : Type) : Type :=
| Ok (a : A)
| Err (e : string).
Arguments Ok {A} a.
Arguments Err {A} e.

Module gofeed.
Record Person : Type := mkPerson { Name : string }.

Record Item : Type := mkItem {
  Title : string;
  Link : string;
  Published : string;
  Updated : string;
  PublishedParsed : option Time;
  UpdatedParsed : option Time;
  Author : option Person
}.

Record Feed : Type := mkFeed { Items : list Item }.
End gofeed.

Module tgbotapi.
Record BotAPI : Type := mkBotAPI { Token : string }.
End tgbotapi.

(** The command-line flags of [init]. *)
Record Flags : Type := mkFlags {
  BotToken : string;
  ChannelID : Z;
  StartBy : Z;
  RSSFilePath : string;
  DebugMode : bool;
  GoroutineNum : Z
}.

Record RssInfo : Type := mkRssInfo {
  Title : string;
  Url : string;
  FullContent : bool
}.

(** The collaborators. [ParseURL k url] is what the parser answers to
    the [k]-th fetch of the run and [ClockNanos k] the wall clock read
    by that fetch, in nanoseconds since the Unix epoch; [Send k] is the
    error the [k]-th send returns, if any. *)
Record World : Type := mkWorld {
  ParseURL : nat -> string -> result gofeed.Feed;
  ClockNanos : nat -> Z;
  NewBotAPI : string -> result tgbotapi.BotAPI;
  Send : nat -> tgbotapi.BotAPI -> Z -> string -> option string
}.

Inductive Event : Type :=
| EvLog (line : string)
| EvSend (client : option tgbotapi.BotAPI) (chat : Z) (text : string)
| EvSleep (d : Z)
| EvDone.

(** Process-wide state: the package variables [bot] and [onceLoader],
    the cancelled context, how often the collaborators were called, and
    what the process has done so far. *)
Record Globals : Type := mkGlobals {
  bot : option tgbotapi.BotAPI;
  onceDone : bool;
  ctxDone : bool;
  fetches : nat;
  sends : nat;
  trace : list Event
}.

Definition initGlobals : Globals := mkGlobals None false false 0 0 [].

(* ================================================================= *)
(** ** A state monad with panics *)

Inductive Res (A : Type) : Type :=
| Val (a : A)
| Panic (msg : string).
Arguments Val {A} a.
Arguments Panic {A} msg.

Definition M (A : Type) : Type := Globals -> Res A * Globals.

Definition ret {A} (a : A) : M A := fun g => (Val a, g).

Definition bind {A B} (m : M A) (k : A -> M B) : M B :=
  fun g => match m g with
           | (Val a, g') => k a g'
           | (Panic msg, g') => (Panic msg, g')
           end.

Notation "x <- m ;; k" := (bind m (fun x => k))
  (at level 61, m at next level, right associativity).
Notation "m ;;; k" := (bind m (fun _ => k))
  (at level 61, right associativity).

Definition panic {A} (msg : string) : M A := fun g => (Panic msg, g).

Definition lift {A} (r : Res A) : M A := fun g => (r, g).

Definition emit (e : Event) : M unit :=
  fun g => (Val tt,
            mkGlobals (bot g) (onceDone g) (ctxDone g) (fetches g) (sends g)
                      (trace g ++ [e])).

(** [defer d]: [d] runs when the body returns and when it panics. *)
Definition defer {A} (d : M unit) (body : M A) : M A :=
  fun g => let (r, g') := body g in (r, snd (d g')).

Definition logPrintf (format : string) (args : list string) : M unit :=
  emit (EvLog (Sprintf format args)).

Definition logPrintln (args : list string) : M unit :=
  emit (EvLog (Sprintln args)).

Definition timeSleep (d : Z) : M unit := emit (EvSleep d).

Definition nilDeref : string :=
  "runtime error: invalid memory address or nil pointer dereference".

(* ================================================================= *)
(** ** [main.go]: fetching and filtering *)

(** [TokenValid]. *)
Definition TokenValid (fl : Flags) : M unit :=
  if String.eqb (BotToken fl) "" || (ChannelID fl =? 0)
  then panic "BotToken && ChannelID cannot be empty"
  else ret tt.

(** [debugInfof]. *)
Definition debugInfof (fl : Flags) (format : string) (v : list string) : M unit :=
  if negb (DebugMode fl) then ret tt
  else
    let format := if negb (HasSuffix format nl) then (format ++ nl)%string
                  else format in
    logPrintf ("debug: " ++ format)%string v.

(** The loop of [getDatetime]: the first timestamp that is neither nil
    nor zero, if the loop returns one. *)
Fixpoint firstValid (times : list (option Time)) : option Time :=
  match times with
  | [] => None
  | d :: rest =>
      match d with
      | Some t => if negb (IsZero t) then Some t else firstValid rest
      | None => firstValid rest
      end
  end.

(** [getDatetime]: after the loop, [times[len(times)-1]]. *)
Definition getDatetime (times : list (option Time)) : Res (option Time) :=
  match firstValid times with
  | Some t => Val (Some t)
  | None =>
      match times with
      | [] => Panic "runtime error: index out of range [-1]"
      | _ :: _ => Val (last times None)
      end
  end.

(** The hour that contains [t], as [GetPostInfo] builds it with
    [time.Date] from the fields of [t]. *)
Definition hourOf (t : Time) : Time :=
  Date (Year t) (Month t) (Day t) (HourOf t) 0 0 0.

Definition windowStart (now : Time) (startBy : Z) : Z :=
  let startTime := Add now (int64_neg (int64_mul startBy Hour)) in
  Unix (hourOf startTime).

Definition windowEnd (now : Time) : Z := Unix (hourOf now).

(** The test of line 144 on the result of [getDatetime]. *)
Definition inWindow (start end_ : Z) (parseDatetime : option Time) : bool :=
  match parseDatetime with
  | Some t => (start <=? Unix t) && (Unix t <? end_)
  | None => false
  end.

(** The [range feed.Items] loop, [msg] being the slice built so far. *)
Fixpoint rangeItems (fl : Flags) (start end_ : Z)
         (items : list gofeed.Item) (msg : list gofeed.Item)
  : M (list gofeed.Item) :=
  match items with
  | [] => ret msg
  | item :: rest =>
      debugInfof fl "Title=%s, Url=%s, Published=%v, Updated=%v"
                 [gofeed.Title item; gofeed.Link item;
                  gofeed.Published item; gofeed.Updated item] ;;;
      parseDatetime <- lift (getDatetime [gofeed.PublishedParsed item;
                                          gofeed.UpdatedParsed item]) ;;
      let msg := if inWindow start end_ parseDatetime then msg ++ [item]
                 else msg in
      rangeItems fl start end_ rest msg
  end.

(** [time.Now().UTC()] and [fp.ParseURL] of one fetch. *)
Definition timeNow (W : World) : M Time :=
  fun g => (Val (timeOfUnixNano (ClockNanos W (fetches g))), g).

Definition parseURL (W : World) (url : string) : M (result gofeed.Feed) :=
  fun g => (Val (ParseURL W (fetches g) url),
            mkGlobals (bot g) (onceDone g) (ctxDone g) (S (fetches g))
                      (sends g) (trace g)).

(** [GetPostInfo]. *)
Definition GetPostInfo (fl : Flags) (W : World) (rss : RssInfo)
  : M (list gofeed.Item) :=
  let msg := [] in
  now <- timeNow W ;;
  let start := windowStart now (StartBy fl) in
  let end_ := windowEnd now in
  r <- parseURL W (Url rss) ;;
  match r with
  | Err err =>
      logPrintf "parse url err: url=%s, %v" [Url rss; err] ;;;
      ret msg
  | Ok feed => rangeItems fl start end_ (gofeed.Items feed) msg
  end.

(* ================================================================= *)
(** ** [main.go]: delivery *)

Definition safeExtractName (author : option gofeed.Person) : string :=
  match author with
  | None => ""
  | Some a => Sprintf ("%s" ++ nl)%string [gofeed.Name a]
  end.

Definition makeDisplayMsg (item : gofeed.Item) : string :=
  Sprintf ("%s%s" ++ nl ++ "%s")%string
          [safeExtractName (gofeed.Author item);
           gofeed.Title item; gofeed.Link item].

Definition beatText : string := "😆only beat package, no new msg".

(** [bot.Send(tgbotapi.NewMessage(chat, text))] on the package variable
    [bot]; on a nil client the call panics inside the library. *)
Definition botSend (W : World) (chat : Z) (text : string) : M (option string) :=
  fun g =>
    let g' := mkGlobals (bot g) (onceDone g) (ctxDone g) (fetches g)
                        (S (sends g)) (trace g ++ [EvSend (bot g) chat text]) in
    match bot g with
    | None => (Panic nilDeref, g')
    | Some b => (Val (Send W (sends g) b chat text), g')
    end.

(** [onceLoader.Do(f)]. *)
Definition onceLoader_Do (f : M unit) : M unit :=
  fun g =>
    if onceDone g then (Val tt, g)
    else f (mkGlobals (bot g) true (ctxDone g) (fetches g) (sends g) (trace g)).

Definition setBot (b : option tgbotapi.BotAPI) : M unit :=
  fun g => (Val tt, mkGlobals b (onceDone g) (ctxDone g) (fetches g)
                              (sends g) (trace g)).

(** The function literal passed to [onceLoader.Do]. *)
Definition initBot (fl : Flags) (W : World) : M unit :=
  if negb (DebugMode fl) then
    match NewBotAPI W (BotToken fl) with
    | Ok b => setBot (Some b)
    | Err err => setBot None ;;; panic err
    end
  else ret tt.

(** Go's [int] increment. *)
Definition int_incr (n : Z) : Z := wrap64 (n + 1).

(** One iteration of the [range tgChan] loop; the result is [cnt]
    after it. *)
Definition pushItem (fl : Flags) (W : World) (feed : gofeed.Item) (cnt : Z)
  : M Z :=
  let info := Sprintln [gofeed.Title feed; gofeed.Link feed] in
  logPrintf "%s" [info] ;;;
  if DebugMode fl then ret cnt
  else
    let displayMsg := makeDisplayMsg feed in
    err <- botSend W (ChannelID fl) displayMsg ;;
    match err with
    | Some e => logPrintf ("send tg err: %v" ++ nl)%string [e]
    | None => ret tt
    end ;;;
    let cnt := int_incr cnt in
    (if Z.rem cnt 10 =? 0 then timeSleep (2 * Second) else ret tt) ;;;
    ret cnt.

(** The loop over the items received until [tgChan] is closed and
    drained. *)
Fixpoint pushLoop (fl : Flags) (W : World) (feeds : list gofeed.Item) (cnt : Z)
  : M Z :=
  match feeds with
  | [] => ret cnt
  | feed :: rest => cnt' <- pushItem fl W feed cnt ;; pushLoop fl W rest cnt'
  end.

(** The code after the loop. *)
Definition pushBeat (fl : Flags) (W : World) (cnt : Z) : M unit :=
  if cnt =? 0 then
    err <- botSend W (ChannelID fl) beatText ;;
    match err with
    | Some e => logPrintf ("send beat err: %v" ++ nl)%string [e]
    | None => ret tt
    end
  else ret tt.

(** [done], the [cancel] of the context [main] waits on. *)
Definition done : M unit :=
  fun g => (Val tt, mkGlobals (bot g) (onceDone g) true (fetches g) (sends g)
                              (trace g ++ [EvDone])).

(** [PushPost] on the sequence of items that [tgChan] delivers. *)
Definition PushPost (fl : Flags) (W : World) (tgChan : list gofeed.Item)
  : M unit :=
  defer done
    (onceLoader_Do (initBot fl W) ;;;
     cnt <- pushLoop fl W tgChan 0 ;;
     pushBeat fl W cnt).

(** [PushPost] up to the end of its loop, with the counter it has
    reached there. *)
Definition pushStage (fl : Flags) (W : World) (tgChan : list gofeed.Item)
  : M Z :=
  onceLoader_Do (initBot fl W) ;;;
  pushLoop fl W tgChan 0.

(* ================================================================= *)
(** ** [main.go]: the goroutines

    [main] starts [PushPost], [InfoProducer] and [GoroutineNum]
    copies of [InfoComsumer]. The state below holds the two buffered
    channels, the wait group and one control point per goroutine; a
    step is what one goroutine does up to its next channel operation.

    A goroutine that panics first runs its deferred calls, as a step
    of its own, and then hands over to the runtime, which reports the
    panic and ends the process. The other goroutines keep running
    until the runtime has done so. The process also ends when [main]
    returns. *)

Record Chan (A : Type) : Type := mkChan { buf : list A; closed : bool }.
Arguments mkChan {A} buf closed.
Arguments buf {A} c.
Arguments closed {A} c.

(** [make(chan _, 20)]. *)
Definition chanCap : nat := 20.

Definition full {A} (c : Chan A) : bool := (chanCap <=? List.length (buf c))%nat.

Inductive Producer : Type :=
| ProdRun (rest : list RssInfo)
| ProdExit.

(** [ConPanic]: the consumer has panicked and its deferred [wg.Done]
    is still to run; [ConDead]: it has handed over to the runtime. *)
Inductive Consumer : Type :=
| ConRecv
| ConSend (feeds : list gofeed.Item)
| ConExit
| ConPanic (msg : string)
| ConDead.

(** [PushPanic]: [PushPost] has panicked and its deferred [done] is
    still to run; [PushDead]: it has handed over to the runtime. *)
Inductive Pusher : Type :=
| PushInit
| PushLoop (cnt : Z)
| PushExit (cnt : Z)
| PushPanic (msg : string)
| PushDead (msg : string).

(** [main] defers nothing: when it panics it is with the runtime at
    once ([MainDead]). *)
Inductive MainG : Type :=
| MainWait
| MainDrain
| MainExit
| MainDead.

(** [crashed] is the panic the runtime is ending the process with. *)
Record Sys : Type := mkSys {
  globals : Globals;
  infoChan : Chan RssInfo;
  tgChan : Chan gofeed.Item;
  producer : Producer;
  consumers : list Consumer;
  wg : Z;
  pusher : Pusher;
  mainG : MainG;
  crashed : option string
}.

Inductive Actor : Type :=
| AProducer
| AConsumer (i : nat)
| APusher
| AMain.

Fixpoint setNth {A} (i : nat) (x : A) (l : list A) : list A :=
  match l, i with
  | [], _ => []
  | _ :: t, O => x :: t
  | h :: t, S j => h :: setNth j x t
  end.

(** The runtime reports the panic of the goroutine that reaches it
    first. *)
Definition fatal (msg : string) (s : Sys) : option string :=
  match crashed s with
  | Some first => Some first
  | None => Some msg
  end.

(** The counter of a [sync.WaitGroup] is an [int32]. *)
Definition wrap32 (z : Z) : Z := (z + 2 ^ 31) mod 2 ^ 32 - 2 ^ 31.

Definition negativeCounter : string := "sync: negative WaitGroup counter".

(** [InfoProducer]: one send per step, then the deferred close. *)
Definition InfoProducer_step (s : Sys) : option Sys :=
  match producer s with
  | ProdExit => None
  | ProdRun (info :: rest) =>
      if full (infoChan s) then None
      else Some (mkSys (globals s)
                       (mkChan (buf (infoChan s) ++ [info]) (closed (infoChan s)))
                       (tgChan s) (ProdRun rest) (consumers s) (wg s)
                       (pusher s) (mainG s) (crashed s))
  | ProdRun [] =>
      Some (mkSys (globals s) (mkChan (buf (infoChan s)) true)
                  (tgChan s) ProdExit (consumers s) (wg s)
                  (pusher s) (mainG s) (crashed s))
  end.

(** [InfoComsumer] number [i]: receive a subscription and fetch it,
    send the next of its items, or leave through the deferred
    [wg.Done]. [wg.Done] stores the new counter before it panics on a
    negative one. A consumer that panics in its loop still runs
    [wg.Done], in the step after. *)
Definition InfoComsumer_step (fl : Flags) (W : World) (i : nat) (s : Sys)
  : option Sys :=
  match nth_error (consumers s) i with
  | None => None
  | Some ConExit => None
  | Some ConDead => None
  | Some ConRecv =>
      match buf (infoChan s) with
      | info :: b =>
          match GetPostInfo fl W info (globals s) with
          | (Val feeds, g) =>
              Some (mkSys g (mkChan b (closed (infoChan s))) (tgChan s)
                          (producer s) (setNth i (ConSend feeds) (consumers s))
                          (wg s) (pusher s) (mainG s) (crashed s))
          | (Panic msg, g) =>
              Some (mkSys g (mkChan b (closed (infoChan s))) (tgChan s)
                          (producer s) (setNth i (ConPanic msg) (consumers s))
                          (wg s) (pusher s) (mainG s) (crashed s))
          end
      | [] =>
          if closed (infoChan s) then
            let v := wrap32 (wg s - 1) in
            if v <? 0 then
              Some (mkSys (globals s) (infoChan s) (tgChan s) (producer s)
                          (setNth i ConDead (consumers s)) v
                          (pusher s) (mainG s) (fatal negativeCounter s))
            else Some (mkSys (globals s) (infoChan s) (tgChan s) (producer s)
                             (setNth i ConExit (consumers s)) v
                             (pusher s) (mainG s) (crashed s))
          else None
      end
  | Some (ConSend []) =>
      Some (mkSys (globals s) (infoChan s) (tgChan s) (producer s)
                  (setNth i ConRecv (consumers s)) (wg s)
                  (pusher s) (mainG s) (crashed s))
  | Some (ConSend (feed :: rest)) =>
      if closed (tgChan s) then
        Some (mkSys (globals s) (infoChan s) (tgChan s) (producer s)
                    (setNth i (ConPanic "send on closed channel") (consumers s))
                    (wg s) (pusher s) (mainG s) (crashed s))
      else if full (tgChan s) then None
      else Some (mkSys (globals s) (infoChan s)
                       (mkChan (buf (tgChan s) ++ [feed]) false)
                       (producer s) (setNth i (ConSend rest) (consumers s))
                       (wg s) (pusher s) (mainG s) (crashed s))
  | Some (ConPanic msg) =>
      Some (mkSys (globals s) (infoChan s) (tgChan s) (producer s)
                  (setNth i ConDead (consumers s)) (wrap32 (wg s - 1))
                  (pusher s) (mainG s) (fatal msg s))
  end.

(** [PushPost] as a goroutine: the one-time initialisation, one
    received item per step, and the code after the loop once [tgChan]
    is closed and empty, with the deferred [done] when that code
    returns. When [PushPost] panics, the deferred [done] is the step
    after, and the runtime gets the panic only then. *)
Definition PushPost_step (fl : Flags) (W : World) (s : Sys) : option Sys :=
  match pusher s with
  | PushExit _ => None
  | PushDead _ => None
  | PushInit =>
      match onceLoader_Do (initBot fl W) (globals s) with
      | (Val _, g) =>
          Some (mkSys g (infoChan s) (tgChan s) (producer s) (consumers s)
                      (wg s) (PushLoop 0) (mainG s) (crashed s))
      | (Panic msg, g) =>
          Some (mkSys g (infoChan s) (tgChan s) (producer s) (consumers s)
                      (wg s) (PushPanic msg) (mainG s) (crashed s))
      end
  | PushLoop cnt =>
      match buf (tgChan s) with
      | feed :: b =>
          match pushItem fl W feed cnt (globals s) with
          | (Val cnt', g) =>
              Some (mkSys g (infoChan s) (mkChan b (closed (tgChan s)))
                          (producer s) (consumers s) (wg s)
                          (PushLoop cnt') (mainG s) (crashed s))
          | (Panic msg, g) =>
              Some (mkSys g (infoChan s) (mkChan b (closed (tgChan s)))
                          (producer s) (consumers s) (wg s)
                          (PushPanic msg) (mainG s) (crashed s))
          end
      | [] =>
          if closed (tgChan s) then
            match pushBeat fl W cnt (globals s) with
            | (Val _, g) =>
                Some (mkSys (snd (done g)) (infoChan s) (tgChan s) (producer s)
                            (consumers s) (wg s) (PushExit cnt) (mainG s)
                            (crashed s))
            | (Panic msg, g) =>
                Some (mkSys g (infoChan s) (tgChan s) (producer s)
                            (consumers s) (wg s) (PushPanic msg) (mainG s)
                            (crashed s))
            end
          else None
      end
  | PushPanic msg =>
      Some (mkSys (snd (done (globals s))) (infoChan s) (tgChan s)
                  (producer s) (consumers s) (wg s) (PushDead msg) (mainG s)
                  (fatal msg s))
  end.

(** [main] from [wg.Wait()] on. *)
Definition main_step (s : Sys) : option Sys :=
  match mainG s with
  | MainWait =>
      if wg s =? 0 then
        let (_, g) := logPrintln ["close tg chan"] (globals s) in
        if closed (tgChan s) then
          Some (mkSys g (infoChan s) (tgChan s) (producer s) (consumers s)
                      (wg s) (pusher s) MainDead
                      (fatal "close of closed channel" s))
        else
          let (_, g) := logPrintln ["waiting for done"] g in
          Some (mkSys g (infoChan s) (mkChan (buf (tgChan s)) true)
                      (producer s) (consumers s) (wg s) (pusher s)
                      MainDrain (crashed s))
      else None
  | MainDrain =>
      if ctxDone (globals s) then
        let (_, g) := logPrintln ["done ..."] (globals s) in
        Some (mkSys g (infoChan s) (tgChan s) (producer s) (consumers s)
                    (wg s) (pusher s) MainExit (crashed s))
      else None
  | MainExit => None
  | MainDead => None
  end.

(** The process can be over in [s]: [main] has returned, or a
    goroutine's panic is with the runtime, which ends the process at
    a moment of its own. *)
Definition finished (s : Sys) : bool :=
  match crashed s, mainG s with
  | Some _, _ => true
  | None, MainExit => true
  | None, _ => false
  end.

(** The return of [main] ends the process, and with it every
    goroutine. *)
Definition exited (s : Sys) : bool :=
  match mainG s with
  | MainExit => true
  | _ => false
  end.

Definition step (fl : Flags) (W : World) (a : Actor) (s : Sys) : option Sys :=
  if exited s then None
  else match a with
       | AProducer => InfoProducer_step s
       | AConsumer i => InfoComsumer_step fl W i s
       | APusher => PushPost_step fl W s
       | AMain => main_step s
       end.

(** [main] up to [wg.Wait()], on the subscriptions [init] has read.
    [PushPost] and [InfoProducer] are started first; [wg.Add] of
    [GoroutineNum] panics on a negative counter, before any consumer
    is started. *)
Definition initSys (fl : Flags) (infos : list RssInfo) : Sys :=
  let v := wrap32 (GoroutineNum fl) in
  if v <? 0 then
    mkSys initGlobals (mkChan [] false) (mkChan [] false) (ProdRun infos)
          [] v PushInit MainDead (Some negativeCounter)
  else
    mkSys initGlobals (mkChan [] false) (mkChan [] false) (ProdRun infos)
          (repeat ConRecv (Z.to_nat (GoroutineNum fl))) v PushInit MainWait
          None.

(** A schedule is the order in which the goroutines take their steps;
    it runs only if every step in it is enabled. The runtime may end
    the process after any step that leaves [finished] true. *)
Fixpoint run (fl : Flags) (W : World) (sched : list Actor) (s : Sys)
  : option Sys :=
  match sched with
  | [] => Some s
  | a :: rest =>
      match step fl W a s with
      | Some s' => run fl W rest s'
      | None => None
      end
  end.

(** A fair scheduler, to produce complete runs: it gives the step to
    the first goroutine that can take one. *)
Definition actors (s : Sys) : list Actor :=
  [APusher; AMain; AProducer] ++ map AConsumer (seq 0 (List.length (consumers s))).

Fixpoint firstEnabled (fl : Flags) (W : World) (s : Sys) (l : list Actor)
  : option (Actor * Sys) :=
  match l with
  | [] => None
  | a :: rest =>
      match step fl W a s with
      | Some s' => Some (a, s')
      | None => firstEnabled fl W s rest
      end
  end.

Fixpoint schedule (fl : Flags) (W : World) (fuel : nat) (s : Sys) : list Actor :=
  match fuel with
  | O => []
  | S fuel' =>
      match firstEnabled fl W s (actors s) with
      | Some (a, s') => a :: schedule fl W fuel' s'
      | None => []
      end
  end.

(* ================================================================= *)
(** ** Notions of the specification *)

(** Truncation to the hour: minutes, seconds and the sub-second part
    are zeroed. *)
Definition truncateToHour (t : Time) : Time :=
  mkTime (tsec t - tsec t mod 3600) 0.

(** The instant [h] hours before [t]. *)
Definition minusHours (t : Time) (h : Z) : Time :=
  mkTime (tsec t - 3600 * h) (tnsec t).

(** The largest look-back whose length in nanoseconds is an [int64]. *)
Definition maxHours : Z := 2562047.

(** The effective timestamp of an entry, by priority fallback: the
    published timestamp, unless it is absent or zero-valued; then the
    updated timestamp, which is also what was supplied last. *)
Definition effectiveTimestamp (item : gofeed.Item) : option Time :=
  match gofeed.PublishedParsed item with
  | Some t => if IsZero t then gofeed.UpdatedParsed item else Some t
  | None => gofeed.UpdatedParsed item
  end.

(** Inclusion as the specification words it: the effective timestamp
    is non-null, non-zero and within [[start, end_)]. *)
Definition qualifies (start end_ : Z) (item : gofeed.Item) : bool :=
  match effectiveTimestamp item with
  | Some t => negb (IsZero t) && (start <=? Unix t) && (Unix t <? end_)
  | None => false
  end.

(** Inclusion as [GetPostInfo] decides it. *)
Definition keepItem (start end_ : Z) (item : gofeed.Item) : bool :=
  match getDatetime [gofeed.PublishedParsed item; gofeed.UpdatedParsed item] with
  | Val d => inWindow start end_ d
  | Panic _ => false
  end.

Definition addTrace (g : Globals) (evs : list Event) : Globals :=
  mkGlobals (bot g) (onceDone g) (ctxDone g) (fetches g) (sends g)
            (trace g ++ evs).

(** The line [debugInfof] writes for an entry in debug mode. *)
Definition debugLine (item : gofeed.Item) : string :=
  Sprintf ("debug: Title=%s, Url=%s, Published=%v, Updated=%v" ++ nl)%string
          [gofeed.Title item; gofeed.Link item;
           gofeed.Published item; gofeed.Updated item].

Definition debugLines (fl : Flags) (items : list gofeed.Item) : list Event :=
  if DebugMode fl then map (fun item => EvLog (debugLine item)) items else [].

(** What one fetch returns and logs, read off the collaborators. *)
Definition fetchWindow (fl : Flags) (W : World) (k : nat) : Z * Z :=
  let now := timeOfUnixNano (ClockNanos W k) in
  (windowStart now (StartBy fl), windowEnd now).

Definition fetchItems (fl : Flags) (W : World) (k : nat) (rss : RssInfo)
  : list gofeed.Item :=
  match ParseURL W k (Url rss) with
  | Ok feed => filter (keepItem (fst (fetchWindow fl W k)) (snd (fetchWindow fl W k)))
                      (gofeed.Items feed)
  | Err _ => []
  end.

Definition fetchLog (fl : Flags) (W : World) (k : nat) (rss : RssInfo)
  : list Event :=
  match ParseURL W k (Url rss) with
  | Ok feed => debugLines fl (gofeed.Items feed)
  | Err err => [EvLog (Sprintf "parse url err: url=%s, %v" [Url rss; err])]
  end.

Definition afterFetch (g : Globals) (evs : list Event) : Globals :=
  mkGlobals (bot g) (onceDone g) (ctxDone g) (S (fetches g)) (sends g)
            (trace g ++ evs).

(** The line [PushPost] logs for every item it receives. *)
Definition infoEvent (feed : gofeed.Item) : Event :=
  EvLog (Sprintf "%s" [Sprintln [gofeed.Title feed; gofeed.Link feed]]).

(** What a live iteration does for [feed] when it is the [k]-th send of
    the process and the counter stands at [cnt]: the info line, one
    send, the error line if the send failed, the pause if the new
    counter is a multiple of 10. *)
Definition itemEvents (W : World) (b : tgbotapi.BotAPI) (chat : Z)
           (k : nat) (cnt : Z) (feed : gofeed.Item) : list Event :=
  [infoEvent feed; EvSend (Some b) chat (makeDisplayMsg feed)]
  ++ match Send W k b chat (makeDisplayMsg feed) with
     | Some e => [EvLog (Sprintf ("send tg err: %v" ++ nl)%string [e])]
     | None => []
     end
  ++ (if Z.rem (int_incr cnt) 10 =? 0 then [EvSleep (2 * Second)] else []).

Fixpoint liveEvents (W : World) (b : tgbotapi.BotAPI) (chat : Z)
         (k : nat) (cnt : Z) (feeds : list gofeed.Item) : list Event :=
  match feeds with
  | [] => []
  | feed :: rest =>
      itemEvents W b chat k cnt feed
      ++ liveEvents W b chat (S k) (int_incr cnt) rest
  end.

Definition isSend (e : Event) : bool :=
  match e with EvSend _ _ _ => true | _ => false end.

Definition isSleep (e : Event) : bool :=
  match e with EvSleep _ => true | _ => false end.

(** The send calls in a trace, their texts, and the pauses. *)
Definition countSends (evs : list Event) : nat :=
  List.length (filter isSend evs).

Fixpoint sendTexts (evs : list Event) : list string :=
  match evs with
  | [] => []
  | EvSend _ _ text :: rest => text :: sendTexts rest
  | _ :: rest => sendTexts rest
  end.

Definition countPauses (evs : list Event) : nat :=
  List.length (filter isSleep evs).

Definition afterSends (g : Globals) (n : nat) (evs : list Event) : Globals :=
  mkGlobals (bot g) (onceDone g) (ctxDone g) (fetches g) (n + sends g)
            (trace g ++ evs).

(** What the code after the loop does when the counter stands at
    [cnt]: nothing unless it is zero; then one send of the heartbeat
    on the package's client, and the error line if the send failed. *)
Definition beatEvents (W : World) (client : option tgbotapi.BotAPI)
           (chat : Z) (k : nat) (cnt : Z) : list Event :=
  if cnt =? 0 then
    EvSend client chat beatText
    :: match client with
       | Some b =>
           match Send W k b chat beatText with
           | Some e => [EvLog (Sprintf ("send beat err: %v" ++ nl)%string [e])]
           | None => []
           end
       | None => []
       end
  else [].

Definition beatResult (client : option tgbotapi.BotAPI) (cnt : Z) : Res unit :=
  if cnt =? 0 then
    match client with
    | Some _ => Val tt
    | None => Panic nilDeref
    end
  else Val tt.

Definition onceSet (g : Globals) (b : option tgbotapi.BotAPI) : Globals :=
  mkGlobals b true (ctxDone g) (fetches g) (sends g) (trace g).

(* ================================================================= *)
(** ** Bookkeeping for the goroutines *)

Fixpoint sumBy {A} (f : A -> nat) (l : list A) : nat :=
  match l with
  | [] => 0%nat
  | a :: rest => (f a + sumBy f rest)%nat
  end.

(** Consumers whose [wg.Done] is still to come. *)
Definition alive (c : Consumer) : nat :=
  match c with ConExit | ConDead => 0 | _ => 1 end.

(** Subscriptions not yet fetched: those the producer still holds and
    those waiting in [infoChan]. *)
Definition toFetch (s : Sys) : list RssInfo :=
  match producer s with ProdRun rest => rest | ProdExit => [] end
  ++ buf (infoChan s).

(** The items a consumer has fetched and not yet sent. *)
Definition pendingList (c : Consumer) : list gofeed.Item :=
  match c with ConSend feeds => feeds | _ => [] end.

Definition counterOf (p : Pusher) : Z :=
  match p with PushLoop cnt | PushExit cnt => cnt | _ => 0 end.

(** The heartbeat, once [PushPost] has left with the counter at 0. *)
Definition beatTexts (p : Pusher) : list string :=
  match p with
  | PushExit cnt => if cnt =? 0 then [beatText] else []
  | _ => []
  end.

(** A bound on the steps that remain, [yield] being the number of
    items each subscription gives. *)
Definition descWeight (yield : RssInfo -> nat) (info : RssInfo) : nat :=
  2 * yield info + 4.

Definition consumerWeight (c : Consumer) : nat :=
  match c with
  | ConExit | ConDead => 0
  | ConRecv | ConPanic _ => 1
  | ConSend feeds => 2 + 2 * List.length feeds
  end.

Definition measure (yield : RssInfo -> nat) (s : Sys) : nat :=
  match producer s with
  | ProdRun rest => 1 + sumBy (fun i => S (descWeight yield i)) rest
  | ProdExit => 0
  end
  + sumBy (descWeight yield) (buf (infoChan s))
  + sumBy consumerWeight (consumers s)
  + List.length (buf (tgChan s))
  + match pusher s with
    | PushInit => 2
    | PushLoop _ | PushPanic _ => 1
    | PushExit _ | PushDead _ => 0
    end
  + match mainG s with
    | MainWait => 2
    | MainDrain => 1
    | MainExit | MainDead => 0
    end.

(** No goroutine has panicked. *)
Definition calmConsumer (c : Consumer) : bool :=
  match c with ConPanic _ | ConDead => false | _ => true end.

Definition calmPusher (p : Pusher) : bool :=
  match p with PushPanic _ | PushDead _ => false | _ => true end.

Definition calmMain (m : MainG) : bool :=
  match m with MainDead => false | _ => true end.

(** What holds of every state a live run reaches, [items] being the
    entries each subscription gives. The last field follows the
    entries through the pipeline: those sent, those in [tgChan], those
    a consumer holds and those of the subscriptions still to fetch are
    together the entries of all subscriptions. *)
Record Inv (fl : Flags) (infos : list RssInfo) (b : tgbotapi.BotAPI)
       (items : RssInfo -> list gofeed.Item) (s : Sys) : Prop := mkInv {
  inv_alive : crashed s = None;
  inv_calm : forallb calmConsumer (consumers s) = true /\
             calmPusher (pusher s) = true /\ calmMain (mainG s) = true;
  inv_workers : List.length (consumers s) = Z.to_nat (GoroutineNum fl);
  inv_wg : wg s = Z.of_nat (sumBy alive (consumers s));
  inv_prod : closed (infoChan s) = true <-> producer s = ProdExit;
  inv_exit : In ConExit (consumers s) ->
             closed (infoChan s) = true /\ buf (infoChan s) = [];
  inv_open : closed (tgChan s) = false <-> mainG s = MainWait;
  inv_joined : mainG s <> MainWait ->
               forall c, In c (consumers s) -> c = ConExit;
  inv_drained : forall cnt, pusher s = PushExit cnt ->
                            closed (tgChan s) = true /\ buf (tgChan s) = [];
  inv_ctx : ctxDone (globals s) = true <-> exists cnt, pusher s = PushExit cnt;
  inv_main : mainG s = MainExit -> exists cnt, pusher s = PushExit cnt;
  inv_once : pusher s = PushInit -> onceDone (globals s) = false;
  inv_bot : pusher s <> PushInit -> bot (globals s) = Some b;
  inv_infos : forall info, In info (toFetch s) -> In info infos;
  inv_flow : exists sent,
      counterOf (pusher s) = wrap64 (Z.of_nat (List.length sent)) /\
      sendTexts (trace (globals s))
      = map makeDisplayMsg sent ++ beatTexts (pusher s) /\
      Permutation
        (sent ++ buf (tgChan s) ++ flat_map pendingList (consumers s)
              ++ flat_map items (toFetch s))
        (flat_map items infos)
}.

(* ================================================================= *)
(** ** Notions for the further properties *)

(** A timestamp [getDatetime] accepts in its loop. *)
Definition usable (d : option Time) : bool :=
  match d with
  | Some t => negb (IsZero t)
  | None => false
  end.

(** [l1] is [l2] with some elements left out, the others in order. *)
Inductive Subseq {A : Type} : list A -> list A -> Prop :=
| Subseq_nil : Subseq [] []
| Subseq_skip (a : A) (l1 l2 : list A) : Subseq l1 l2 -> Subseq l1 (a :: l2)
| Subseq_keep (a : A) (l1 l2 : list A) :
    Subseq l1 l2 -> Subseq (a :: l1) (a :: l2).

Definition isLog (e : Event) : bool :=
  match e with EvLog _ => true | _ => false end.

Definition isDone (e : Event) : bool :=
  match e with EvDone => true | _ => false end.

(** Whether the character [c] occurs in [s]. *)
Fixpoint occurs (c : ascii) (s : string) : bool :=
  match s with
  | EmptyString => false
  | String a rest => Ascii.eqb a c || occurs c rest
  end.

(** The debug line of an entry, written out. *)
Definition debugText (item : gofeed.Item) : string :=
  ("debug: Title=" ++ gofeed.Title item ++ ", Url=" ++ gofeed.Link item
   ++ ", Published=" ++ gofeed.Published item
   ++ ", Updated=" ++ gofeed.Updated item ++ nl)%string.

Definition noDone (evs : list Event) : bool :=
  forallb (fun e => negb (isDone e)) evs.

(** A computation that only adds events other than the cancellation
    to the trace and leaves the cancelled flag and the fetch count as
    they are. *)
Definition quiet {A : Type} (m : M A) : Prop :=
  forall g, exists evs,
    trace (snd (m g)) = trace g ++ evs /\
    noDone evs = true /\
    ctxDone (snd (m g)) = ctxDone g /\
    fetches (snd (m g)) = fetches g.

(** An event that, if it is a send, goes through client [b] to [chat]. *)
Definition targets (b : tgbotapi.BotAPI) (chat : Z) (e : Event) : Prop :=
  match e with
  | EvSend c ch _ => c = Some b /\ ch = chat
  | _ => True
  end.

(** What holds of every state a live run without workers reaches. *)
Record InvIdle (b : tgbotapi.BotAPI) (s : Sys) : Prop := mkInvIdle {
  idle_alive : crashed s = None;
  idle_calm : calmPusher (pusher s) = true /\ calmMain (mainG s) = true;
  idle_consumers : consumers s = [];
  idle_wg : wg s = 0;
  idle_tg : buf (tgChan s) = [];
  idle_open : closed (tgChan s) = false <-> mainG s = MainWait;
  idle_fetches : fetches (globals s) = 0%nat;
  idle_ctx : ctxDone (globals s) = true <-> exists cnt, pusher s = PushExit cnt;
  idle_main : mainG s = MainExit -> exists cnt, pusher s = PushExit cnt;
  idle_once : pusher s = PushInit -> onceDone (globals s) = false;
  idle_bot : pusher s <> PushInit -> bot (globals s) = Some b;
  idle_cnt : counterOf (pusher s) = 0;
  idle_sent : sendTexts (trace (globals s)) = beatTexts (pusher s)
}.

(** What holds of every state a debug run reaches: the client is
    nil, the counter is 0, [PushPost] has not returned, it can only
    panic on the nil client, the only send attempted is the heartbeat
    of that panic, the context is cancelled exactly when the deferred
    [done] of the panicking [PushPost] has run, and [main] returns
    only after that. *)
Record InvDebug (s : Sys) : Prop := mkInvDebug {
  dbg_bot : bot (globals s) = None;
  dbg_cnt : counterOf (pusher s) = 0;
  dbg_pusher : forall cnt, pusher s <> PushExit cnt;
  dbg_msg : forall msg,
      pusher s = PushPanic msg \/ pusher s = PushDead msg -> msg = nilDeref;
  dbg_sent : sendTexts (trace (globals s))
             = if calmPusher (pusher s) then [] else [beatText];
  dbg_ctx : ctxDone (globals s) = true <-> exists msg, pusher s = PushDead msg;
  dbg_dead : (exists msg, pusher s = PushDead msg) -> crashed s <> None;
  dbg_main : mainG s = MainExit -> ctxDone (globals s) = true
}.

(** Subscriptions not yet fetched, in the order in which they will be
    received: those in [infoChan], then those the producer holds. *)
Definition toFetchInOrder (s : Sys) : list RssInfo :=
  buf (infoChan s)
  ++ match producer s with ProdRun rest => rest | ProdExit => [] end.



(** The entries in the order in which a single consumer passes them
    on: those sent, those in [tgChan], those the consumer holds, those
    of the subscriptions to come. *)
Definition InOrder (items : RssInfo -> list gofeed.Item)
           (infos : list RssInfo) (s : Sys) : Prop :=
  exists sent,
    sendTexts (trace (globals s))
    = map makeDisplayMsg sent ++ beatTexts (pusher s) /\
    sent ++ buf (tgChan s) ++ flat_map pendingList (consumers s)
         ++ flat_map items (toFetchInOrder s)
    = flat_map items infos.

(* ================================================================= *)
(** ** Sample inputs *)

Module Sample.

(** 2024-01-01 00:30:00.000000005 UTC. *)
Definition clock : Z := 1704069000 * 1000000000 + 5.

Definition entry (title : string) (published updated : option Time)
  : gofeed.Item :=
  gofeed.mkItem title ("https://example.org/" ++ title)%string
                "published" "updated" published updated
                (Some (gofeed.mkPerson "ann")).

(** Published one hour, two hours and two days before [clock]. *)
Definition fresh1 : gofeed.Item :=
  entry "one" (Some (timeOfUnixNano (clock - 3600 * 1000000000))) None.
Definition fresh2 : gofeed.Item :=
  entry "two" None (Some (timeOfUnixNano (clock - 7200 * 1000000000))).
Definition stale : gofeed.Item :=
  entry "old" (Some (timeOfUnixNano (clock - 172800 * 1000000000))) None.
Definition undated : gofeed.Item := entry "undated" None None.
Definition zeroed : gofeed.Item := entry "zeroed" None (Some (mkTime 0 0)).

Definition feed : gofeed.Feed :=
  gofeed.mkFeed [fresh1; undated; stale; fresh2; zeroed].

Definition subA : RssInfo := mkRssInfo "A" "https://a.example/rss" false.
Definition subB : RssInfo := mkRssInfo "B" "https://b.example/rss" true.

Definition client : tgbotapi.BotAPI := tgbotapi.mkBotAPI "token".

(** The feed of [subA] cannot be fetched, every other one is [feed];
    the first send fails, the later ones succeed. *)
Definition world : World :=
  mkWorld (fun _ url => if String.eqb url (Url subA) then Err "timeout"
                        else Ok feed)
          (fun _ => clock)
          (fun token => Ok (tgbotapi.mkBotAPI token))
          (fun k _ _ _ => if Nat.eqb k 0 then Some "flood" else None).

Definition flags (debug : bool) (startBy : Z) (workers : Z) : Flags :=
  mkFlags "token" 42 startBy "rss.json" debug workers.

Definition live : Flags := flags false 3 5.
Definition debug : Flags := flags true 3 5.

(** Globals once the client is constructed. *)
Definition ready : Globals := mkGlobals (Some client) true false 0 0 [].

End Sample.

(* ================================================================= *)
(** * Properties *)

(** ** Machine integers *)

Lemma wrap64_small z : in_int64 z -> wrap64 z = z.
Proof.
  unfold in_int64, wrap64. intros H.
  rewrite Z.mod_small; lia.
Qed.

Lemma wrap64_range z : in_int64 (wrap64 z).
Proof.
  unfold in_int64, wrap64.
  pose proof (Z.mod_pos_bound (z + 2 ^ 63) (2 ^ 64) ltac:(lia)). lia.
Qed.

(** ** The calendar *)

Lemma yearOfEra_bounds doe :
  0 <= doe < daysPerEra -> 0 <= yearOfEra doe < 400.
Proof.
  unfold daysPerEra, yearOfEra. intros H.
  Z.div_mod_to_equations; lia.
Qed.

Lemma monthIndex_bounds doe :
  0 <= doe < daysPerEra -> 0 <= (5 * dayOfYear doe + 2) / 153 <= 11.
Proof.
  unfold daysPerEra, dayOfYear, yearOfEra. intros H.
  Z.div_mod_to_equations; lia.
Qed.

(** The civil date of a day number names that day. *)
Lemma dayNumber_civil day :
  dayNumber (fst (fst (civil day))) (snd (fst (civil day))) (snd (civil day))
  = day.
Proof.
  unfold civil. cbn [fst snd].
  set (z := day + 306).
  assert (Hdoe : 0 <= z mod daysPerEra < daysPerEra)
    by (apply Z.mod_pos_bound; unfold daysPerEra; lia).
  pose proof (yearOfEra_bounds _ Hdoe) as Hy.
  pose proof (monthIndex_bounds _ Hdoe) as Hmp.
  set (doe := z mod daysPerEra) in *.
  set (yoe := yearOfEra doe) in *.
  assert (Hdoy : dayOfYear doe = doe - (365 * yoe + yoe / 4 - yoe / 100))
    by reflexivity.
  set (doy := dayOfYear doe) in *.
  set (mp := (5 * doy + 2) / 153) in *.
  set (era := z / daysPerEra).
  assert (Hz : z = era * daysPerEra + doe).
  { subst era doe.
    pose proof (Z.div_mod z daysPerEra ltac:(unfold daysPerEra; lia)). lia. }
  set (m := if mp <? 10 then mp + 3 else mp - 9).
  assert (Hm : 1 <= m <= 12
               /\ (if 2 <? m then m - 3 else m + 9) = mp
               /\ (m <=? 2) = negb (mp <? 10)).
  { subst m. destruct (Z.ltb_spec mp 10).
    - destruct (Z.ltb_spec 2 (mp + 3)); destruct (Z.leb_spec (mp + 3) 2);
        simpl; lia.
    - destruct (Z.ltb_spec 2 (mp - 9)); destruct (Z.leb_spec (mp - 9) 2);
        simpl; lia. }
  destruct Hm as (Hm1 & Hm2 & Hm3).
  unfold dayNumber.
  replace ((m - 1) / 12) with 0 by (symmetry; apply Z.div_small; lia).
  replace ((m - 1) mod 12 + 1) with m by (rewrite Z.mod_small; lia).
  rewrite Hm2.
  set (y := yoe + era * 400).
  assert (Hy' : (if m <=? 2 then (if m <=? 2 then y + 1 else y) + 0 - 1
                 else (if m <=? 2 then y + 1 else y) + 0) = y)
    by (destruct (m <=? 2); lia).
  rewrite Hy'.
  assert (y / 400 = era) as ->.
  { subst y. rewrite Z.div_add by lia. rewrite Z.div_small; lia. }
  assert (y mod 400 = yoe) as ->.
  { subst y. rewrite Z.mod_add by lia. apply Z.mod_small; lia. }
  lia.
Qed.

(** What [GetPostInfo] builds with [time.Date] is the truncation. *)
Lemma hourOf_truncateToHour t : hourOf t = truncateToHour t.
Proof.
  unfold hourOf, truncateToHour, Date, Year, Month, Day.
  rewrite dayNumber_civil.
  unfold absDay, HourOf, secondsPerDay.
  f_equal. Z.div_mod_to_equations; lia.
Qed.

Lemma truncateToHour_fields t :
  Year (truncateToHour t) = Year t /\
  Month (truncateToHour t) = Month t /\
  Day (truncateToHour t) = Day t /\
  HourOf (truncateToHour t) = HourOf t /\
  Minute (truncateToHour t) = 0 /\
  SecondOf (truncateToHour t) = 0 /\
  NanosecondOf (truncateToHour t) = 0.
Proof.
  assert (Hd : absDay (truncateToHour t) = absDay t).
  { unfold absDay, truncateToHour, secondsPerDay. cbn [tsec].
    Z.div_mod_to_equations; lia. }
  unfold Year, Month, Day. rewrite Hd.
  unfold HourOf, Minute, SecondOf, NanosecondOf, truncateToHour, secondsPerDay.
  cbn [tsec tnsec].
  repeat split; Z.div_mod_to_equations; lia.
Qed.

Lemma truncateToHour_mono t u :
  tsec t <= tsec u -> Unix (truncateToHour t) <= Unix (truncateToHour u).
Proof.
  unfold Unix, truncateToHour. cbn [tsec]. intros H.
  Z.div_mod_to_equations; lia.
Qed.

Lemma timeOfUnixNano_nsec ns : 0 <= tnsec (timeOfUnixNano ns) < 1000000000.
Proof. unfold timeOfUnixNano. cbn [tnsec]. apply Z.mod_pos_bound. lia. Qed.

(** Adding whole seconds to a well-formed instant. *)
Lemma Add_seconds t s :
  0 <= tnsec t < 1000000000 ->
  Add t (s * 1000000000) = mkTime (tsec t + s) (tnsec t).
Proof.
  intros H. unfold Add.
  rewrite Z.quot_mul by lia. rewrite Z.rem_mul by lia.
  rewrite Z.add_0_r.
  destruct (Z.leb_spec 1000000000 (tnsec t)); [lia|].
  destruct (Z.ltb_spec (tnsec t) 0); [lia|]. reflexivity.
Qed.

Lemma Add_lower t d :
  0 <= tnsec t < 1000000000 -> tsec t + Z.quot d 1000000000 - 1 <= tsec (Add t d).
Proof.
  intros H. unfold Add.
  destruct (1000000000 <=? _); [cbn [tsec]; lia|].
  destruct (_ <? 0); cbn [tsec]; lia.
Qed.

(** The look-back as a duration, while it fits. *)
Lemma lookback_exact h :
  - maxHours <= h <= maxHours ->
  int64_neg (int64_mul h Hour) = (- h * 3600) * 1000000000.
Proof.
  unfold maxHours, int64_neg, int64_mul, Hour, Second. intros H.
  rewrite (wrap64_small (h * _)) by (unfold in_int64; lia).
  rewrite wrap64_small by (unfold in_int64; lia). lia.
Qed.

Lemma windowStart_exact ns h :
  - maxHours <= h <= maxHours ->
  windowStart (timeOfUnixNano ns) h
  = Unix (truncateToHour (minusHours (timeOfUnixNano ns) h)).
Proof.
  intros H. unfold windowStart.
  rewrite lookback_exact by exact H.
  rewrite Add_seconds by apply timeOfUnixNano_nsec.
  rewrite hourOf_truncateToHour. unfold minusHours.
  do 3 f_equal. lia.
Qed.

Lemma windowEnd_exact now : windowEnd now = Unix (truncateToHour now).
Proof. unfold windowEnd. now rewrite hourOf_truncateToHour. Qed.

(** ** Fetching *)

Lemma addTrace_nil g : addTrace g [] = g.
Proof. destruct g. unfold addTrace. cbn. now rewrite app_nil_r. Qed.

Lemma addTrace_app g a b : addTrace (addTrace g a) b = addTrace g (a ++ b).
Proof. unfold addTrace. cbn. now rewrite app_assoc. Qed.

Lemma getDatetime_effective item :
  getDatetime [gofeed.PublishedParsed item; gofeed.UpdatedParsed item]
  = Val (effectiveTimestamp item).
Proof.
  unfold getDatetime, effectiveTimestamp. cbn [firstValid last].
  destruct (gofeed.PublishedParsed item) as [t|];
    [destruct (IsZero t); cbn [negb]|];
    try reflexivity;
    (destruct (gofeed.UpdatedParsed item) as [u|];
     [destruct (IsZero u); reflexivity | reflexivity]).
Qed.

Lemma keepItem_effective start end_ item :
  keepItem start end_ item = inWindow start end_ (effectiveTimestamp item).
Proof. unfold keepItem. now rewrite getDatetime_effective. Qed.

Lemma debugInfof_entry fl item g :
  debugInfof fl "Title=%s, Url=%s, Published=%v, Updated=%v"
             [gofeed.Title item; gofeed.Link item;
              gofeed.Published item; gofeed.Updated item] g
  = (Val tt, addTrace g (debugLines fl [item])).
Proof.
  unfold debugInfof, debugLines.
  destruct (DebugMode fl); cbn [negb map].
  - set (format := "Title=%s, Url=%s, Published=%v, Updated=%v").
    assert (Hs : HasSuffix format nl = false) by (vm_compute; reflexivity).
    rewrite Hs. cbn [negb].
    assert (Hf : ("debug: " ++ (format ++ nl))%string
                 = ("debug: Title=%s, Url=%s, Published=%v, Updated=%v" ++ nl)%string)
      by (vm_compute; reflexivity).
    rewrite Hf. subst format.
    unfold logPrintf, emit, addTrace, debugLine. reflexivity.
  - unfold ret. now rewrite addTrace_nil.
Qed.

Lemma debugLines_cons fl item items :
  debugLines fl (item :: items) = debugLines fl [item] ++ debugLines fl items.
Proof. unfold debugLines. destruct (DebugMode fl); reflexivity. Qed.

Lemma rangeItems_spec fl start end_ items :
  forall msg g,
    rangeItems fl start end_ items msg g
    = (Val (msg ++ filter (keepItem start end_) items),
       addTrace g (debugLines fl items)).
Proof.
  induction items as [|item rest IH]; intros msg g.
  - cbn [rangeItems filter]. unfold ret, debugLines.
    rewrite app_nil_r.
    replace (if DebugMode fl then map _ [] else []) with (@nil Event)
      by (destruct (DebugMode fl); reflexivity).
    now rewrite addTrace_nil.
  - cbn [rangeItems filter]. unfold bind at 1.
    rewrite debugInfof_entry. unfold bind at 1, lift.
    rewrite getDatetime_effective.
    rewrite IH, addTrace_app, <- debugLines_cons.
    rewrite (keepItem_effective start end_ item).
    destruct (inWindow start end_ (effectiveTimestamp item)).
    + now rewrite <- app_assoc.
    + reflexivity.
Qed.

Lemma GetPostInfo_spec fl W rss g :
  GetPostInfo fl W rss g
  = (Val (fetchItems fl W (fetches g) rss),
     afterFetch g (fetchLog fl W (fetches g) rss)).
Proof.
  unfold GetPostInfo, fetchItems, fetchLog, fetchWindow.
  unfold bind at 1, timeNow. unfold bind at 1, parseURL. cbn [fst snd].
  destruct (ParseURL W (fetches g) (Url rss)) as [feed|err].
  - rewrite rangeItems_spec. reflexivity.
  - reflexivity.
Qed.

(** The zero instant lies before every window of a run whose clock is
    not before the Unix epoch. *)
Lemma windowStart_after_zero ns h :
  0 <= ns -> Unix (mkTime 0 0) < windowStart (timeOfUnixNano ns) h.
Proof.
  intros Hns. unfold windowStart. rewrite hourOf_truncateToHour.
  set (d := int64_neg (int64_mul h Hour)).
  pose proof (wrap64_range (- int64_mul h Hour)) as Hd.
  fold (int64_neg (int64_mul h Hour)) in Hd. fold d in Hd.
  pose proof (Add_lower (timeOfUnixNano ns) d (timeOfUnixNano_nsec ns)) as Hl.
  assert (Hq : - 9223372037 <= Z.quot d 1000000000).
  { unfold in_int64 in Hd.
    assert (Z.quot (- 2 ^ 63) 1000000000 <= Z.quot d 1000000000)
      by (apply Z.quot_le_mono; lia).
    assert (Z.quot (- 2 ^ 63) 1000000000 = - 9223372036) by reflexivity.
    lia. }
  assert (Hs : unixToInternal <= tsec (timeOfUnixNano ns)).
  { unfold timeOfUnixNano. cbn [tsec].
    assert (0 <= ns / 1000000000) by (apply Z.div_pos; lia). lia. }
  assert (Hu : unixToInternal = 62135596800) by reflexivity.
  unfold Unix, truncateToHour. cbn [tsec].
  pose proof (Z.mod_pos_bound (tsec (Add (timeOfUnixNano ns) d)) 3600 ltac:(lia)).
  lia.
Qed.

Lemma IsZero_true t : IsZero t = true -> Unix t = Unix (mkTime 0 0).
Proof.
  unfold IsZero, Unix. intros H. apply andb_true_iff in H as [H _].
  apply Z.eqb_eq in H. cbn [tsec]. lia.
Qed.

Lemma keepItem_qualifies start end_ item :
  Unix (mkTime 0 0) < start ->
  keepItem start end_ item = qualifies start end_ item.
Proof.
  intros Hz. rewrite keepItem_effective. unfold qualifies, inWindow.
  destruct (effectiveTimestamp item) as [t|]; [|reflexivity].
  destruct (IsZero t) eqn:Hi; cbn [negb andb]; [|reflexivity].
  apply IsZero_true in Hi.
  destruct (Z.leb_spec start (Unix t)); [lia|reflexivity].
Qed.

(** ** Delivery *)

Lemma wrap64_add_l a b : wrap64 (wrap64 a + b) = wrap64 (a + b).
Proof.
  unfold wrap64.
  replace ((a + 2 ^ 63) mod 2 ^ 64 - 2 ^ 63 + b + 2 ^ 63)
    with ((a + 2 ^ 63) mod 2 ^ 64 + b) by lia.
  rewrite Z.add_mod_idemp_l by lia.
  f_equal. f_equal. lia.
Qed.

Lemma afterSends_app g n m a b :
  afterSends (afterSends g n a) m b = afterSends g (m + n) (a ++ b).
Proof.
  unfold afterSends. cbn. f_equal; [lia|]. now rewrite app_assoc.
Qed.

Lemma afterSends_zero g evs : afterSends g 0 evs = addTrace g evs.
Proof. reflexivity. Qed.

Lemma pushItem_debug fl W feed cnt g :
  DebugMode fl = true ->
  pushItem fl W feed cnt g = (Val cnt, addTrace g [infoEvent feed]).
Proof.
  intros Hd. unfold pushItem. rewrite Hd.
  unfold bind, logPrintf, emit, ret, addTrace, infoEvent. reflexivity.
Qed.

Lemma pushItem_live fl W feed cnt g b :
  DebugMode fl = false ->
  bot g = Some b ->
  pushItem fl W feed cnt g
  = (Val (int_incr cnt),
     afterSends g 1 (itemEvents W b (ChannelID fl) (sends g) cnt feed)).
Proof.
  intros Hd Hb. unfold pushItem. rewrite Hd.
  unfold itemEvents, infoEvent, afterSends.
  unfold bind at 1. unfold logPrintf at 1, emit at 1.
  unfold bind at 1. unfold botSend. cbn [bot sends trace onceDone ctxDone fetches].
  rewrite Hb.
  destruct (Send W (sends g) b (ChannelID fl) (makeDisplayMsg feed)) as [e|];
    destruct (Z.rem (int_incr cnt) 10 =? 0);
    unfold bind, logPrintf, timeSleep, emit, ret;
    cbn [bot sends trace onceDone ctxDone fetches];
    rewrite <- ?app_assoc; reflexivity.
Qed.

Lemma pushLoop_debug fl W feeds :
  DebugMode fl = true ->
  forall cnt g,
    pushLoop fl W feeds cnt g = (Val cnt, addTrace g (map infoEvent feeds)).
Proof.
  intros Hd. induction feeds as [|feed rest IH]; intros cnt g.
  - cbn [pushLoop map]. unfold ret. now rewrite addTrace_nil.
  - cbn [pushLoop map]. unfold bind. rewrite pushItem_debug by exact Hd.
    rewrite IH, addTrace_app. reflexivity.
Qed.

Lemma pushLoop_live fl W b feeds :
  DebugMode fl = false ->
  forall cnt g,
    bot g = Some b ->
    in_int64 cnt ->
    pushLoop fl W feeds cnt g
    = (Val (wrap64 (cnt + Z.of_nat (List.length feeds))),
       afterSends g (List.length feeds)
                  (liveEvents W b (ChannelID fl) (sends g) cnt feeds)).
Proof.
  intros Hd. induction feeds as [|feed rest IH]; intros cnt g Hb Hc.
  - cbn [pushLoop liveEvents List.length]. unfold ret.
    rewrite Z.add_0_r, wrap64_small by exact Hc.
    rewrite afterSends_zero, addTrace_nil. reflexivity.
  - cbn [pushLoop liveEvents]. unfold bind.
    rewrite (pushItem_live fl W feed cnt g b Hd Hb).
    rewrite IH; [|exact Hb|apply wrap64_range].
    rewrite afterSends_app. cbn [sends afterSends].
    unfold int_incr at 1. rewrite wrap64_add_l.
    f_equal; [f_equal; f_equal; cbn [List.length]; lia|].
    f_equal. cbn [List.length]. lia.
Qed.

Lemma initBot_debug fl W g :
  DebugMode fl = true ->
  onceDone g = false ->
  onceLoader_Do (initBot fl W) g = (Val tt, onceSet g (bot g)).
Proof.
  intros Hd Ho. unfold onceLoader_Do, initBot. rewrite Ho, Hd. reflexivity.
Qed.

Lemma initBot_live fl W g b :
  DebugMode fl = false ->
  onceDone g = false ->
  NewBotAPI W (BotToken fl) = Ok b ->
  onceLoader_Do (initBot fl W) g = (Val tt, onceSet g (Some b)).
Proof.
  intros Hd Ho Hn. unfold onceLoader_Do, initBot. rewrite Ho, Hd, Hn.
  reflexivity.
Qed.

Lemma pushStage_debug fl W feeds g :
  DebugMode fl = true ->
  onceDone g = false ->
  pushStage fl W feeds g
  = (Val 0, addTrace (onceSet g (bot g)) (map infoEvent feeds)).
Proof.
  intros Hd Ho. unfold pushStage, bind.
  rewrite initBot_debug by assumption.
  now rewrite pushLoop_debug.
Qed.

Lemma pushStage_live fl W feeds g b :
  DebugMode fl = false ->
  onceDone g = false ->
  NewBotAPI W (BotToken fl) = Ok b ->
  pushStage fl W feeds g
  = (Val (wrap64 (Z.of_nat (List.length feeds))),
     afterSends (onceSet g (Some b)) (List.length feeds)
                (liveEvents W b (ChannelID fl) (sends g) 0 feeds)).
Proof.
  intros Hd Ho Hn. unfold pushStage, bind.
  rewrite (initBot_live fl W g b) by assumption.
  rewrite (pushLoop_live fl W b feeds Hd 0); [reflexivity|reflexivity|].
  unfold in_int64. lia.
Qed.

Lemma pushBeat_spec fl W cnt g :
  pushBeat fl W cnt g
  = (beatResult (bot g) cnt,
     afterSends g (if cnt =? 0 then 1 else 0)
                (beatEvents W (bot g) (ChannelID fl) (sends g) cnt)).
Proof.
  unfold pushBeat, beatResult, beatEvents.
  destruct (cnt =? 0).
  - unfold bind, botSend.
    destruct (bot g) as [b|] eqn:Hb.
    + destruct (Send W (sends g) b (ChannelID fl) beatText) as [e|];
        unfold logPrintf, emit, ret, afterSends;
        cbn [bot sends trace onceDone ctxDone fetches];
        rewrite <- ?app_assoc, ?Hb; reflexivity.
    + unfold afterSends. rewrite Hb. reflexivity.
  - unfold ret. rewrite afterSends_zero, addTrace_nil. reflexivity.
Qed.

(** [PushPost] is its loop, then the code after the loop, then the
    deferred [done]. *)
Lemma PushPost_stages fl W feeds g :
  PushPost fl W feeds g
  = match pushStage fl W feeds g with
    | (Val cnt, g1) =>
        (fst (pushBeat fl W cnt g1), snd (done (snd (pushBeat fl W cnt g1))))
    | (Panic msg, g1) => (Panic msg, snd (done g1))
    end.
Proof.
  unfold PushPost, pushStage, defer, bind.
  destruct (onceLoader_Do (initBot fl W) g) as [[u|msg] g0]; [|reflexivity].
  destruct (pushLoop fl W feeds 0 g0) as [[cnt|msg] g1]; [|reflexivity].
  destruct (pushBeat fl W cnt g1) as [r g2]. reflexivity.
Qed.

Lemma countSends_app a b : countSends (a ++ b) = (countSends a + countSends b)%nat.
Proof. unfold countSends. now rewrite filter_app, length_app. Qed.

Lemma countPauses_app a b :
  countPauses (a ++ b) = (countPauses a + countPauses b)%nat.
Proof. unfold countPauses. now rewrite filter_app, length_app. Qed.

Lemma sendTexts_app a b : sendTexts (a ++ b) = sendTexts a ++ sendTexts b.
Proof.
  induction a as [|e a IH]; [reflexivity|].
  destruct e; cbn [sendTexts app]; rewrite IH; reflexivity.
Qed.

Lemma itemEvents_sends W b chat k cnt feed :
  sendTexts (itemEvents W b chat k cnt feed) = [makeDisplayMsg feed] /\
  countSends (itemEvents W b chat k cnt feed) = 1%nat.
Proof.
  unfold itemEvents, infoEvent.
  destruct (Send W k b chat (makeDisplayMsg feed));
    destruct (Z.rem (int_incr cnt) 10 =? 0); split; reflexivity.
Qed.

Lemma itemEvents_pauses W b chat k cnt feed :
  countPauses (itemEvents W b chat k cnt feed)
  = if Z.rem (int_incr cnt) 10 =? 0 then 1%nat else 0%nat.
Proof.
  unfold itemEvents, infoEvent.
  destruct (Send W k b chat (makeDisplayMsg feed));
    destruct (Z.rem (int_incr cnt) 10 =? 0); reflexivity.
Qed.

Lemma liveEvents_sends W b chat feeds :
  forall k cnt,
    sendTexts (liveEvents W b chat k cnt feeds) = map makeDisplayMsg feeds /\
    countSends (liveEvents W b chat k cnt feeds) = List.length feeds.
Proof.
  induction feeds as [|feed rest IH]; intros k cnt; [split; reflexivity|].
  cbn [liveEvents map List.length].
  rewrite sendTexts_app, countSends_app.
  destruct (itemEvents_sends W b chat k cnt feed) as [-> ->].
  destruct (IH (S k) (int_incr cnt)) as [-> ->]. split; reflexivity.
Qed.

Lemma liveEvents_pauses W b chat feeds :
  forall k cnt,
    0 <= cnt ->
    cnt + Z.of_nat (List.length feeds) < 2 ^ 63 ->
    Z.of_nat (countPauses (liveEvents W b chat k cnt feeds))
    = (cnt + Z.of_nat (List.length feeds)) / 10 - cnt / 10.
Proof.
  induction feeds as [|feed rest IH]; intros k cnt H0 Hlt.
  - cbn [liveEvents List.length countPauses filter]. cbn. rewrite Z.add_0_r. lia.
  - cbn [liveEvents]. rewrite countPauses_app, itemEvents_pauses.
    cbn [List.length] in *.
    assert (Hi : int_incr cnt = cnt + 1).
    { unfold int_incr. apply wrap64_small. unfold in_int64. lia. }
    rewrite Hi. rewrite Nat2Z.inj_add, IH by lia.
    replace (cnt + 1 + Z.of_nat (List.length rest))
      with (cnt + Z.of_nat (S (List.length rest))) by lia.
    assert (Hr : Z.rem (cnt + 1) 10 = (cnt + 1) mod 10)
      by (apply Z.rem_mod_nonneg; lia).
    rewrite Hr.
    destruct (Z.eqb_spec ((cnt + 1) mod 10) 0) as [He|He];
      Z.div_mod_to_equations; lia.
Qed.

Lemma liveEvents_infos W b chat feeds :
  forall k cnt evs,
    liveEvents W b chat k cnt feeds = evs ->
    forall feed, In feed feeds -> In (infoEvent feed) evs.
Proof.
  induction feeds as [|f rest IH]; intros k cnt evs <- feed Hin;
    [destruct Hin|].
  cbn [liveEvents]. apply in_or_app. destruct Hin as [<-|Hin].
  - left. unfold itemEvents. left. reflexivity.
  - right. eapply IH; [reflexivity|exact Hin].
Qed.

Lemma infoEvents_quiet feeds :
  countSends (map infoEvent feeds) = 0%nat /\
  countPauses (map infoEvent feeds) = 0%nat.
Proof.
  induction feeds as [|f rest [IHs IHp]]; [split; reflexivity|].
  split; [exact IHs|exact IHp].
Qed.

Lemma beatEvents_sends W client chat k cnt :
  countSends (beatEvents W client chat k cnt)
  = if cnt =? 0 then 1%nat else 0%nat.
Proof.
  unfold beatEvents. destruct (cnt =? 0); [|reflexivity].
  destruct client as [b|]; [|reflexivity].
  destruct (Send W k b chat beatText); reflexivity.
Qed.

(** ** The goroutines *)

Lemma wrap32_small z : - 2 ^ 31 <= z < 2 ^ 31 -> wrap32 z = z.
Proof. unfold wrap32. intros H. rewrite Z.mod_small; lia. Qed.

Lemma length_setNth {A} (x : A) l : forall i, List.length (setNth i x l) = List.length l.
Proof.
  induction l as [|h t IH]; intros [|i]; cbn [setNth List.length];
    try reflexivity. now rewrite IH.
Qed.

Lemma In_setNth {A} (x y : A) l :
  forall i, In y (setNth i x l) -> y = x \/ In y l.
Proof.
  induction l as [|h t IH]; intros [|i] H; cbn [setNth] in H.
  - destruct H.
  - destruct H.
  - destruct H as [<-|H]; [left; reflexivity|right; right; exact H].
  - destruct H as [<-|H]; [right; left; reflexivity|].
    destruct (IH i H) as [->|Hin]; [left; reflexivity|right; right; exact Hin].
Qed.

Lemma sum_setNth {A} (f : A -> nat) (x x0 : A) l :
  forall i,
    nth_error l i = Some x0 ->
    (sumBy f (setNth i x l) + f x0 = sumBy f l + f x)%nat.
Proof.
  induction l as [|h t IH]; intros [|i] H; cbn [nth_error] in H;
    try discriminate H.
  - injection H as ->. cbn [setNth sumBy]. lia.
  - cbn [setNth sumBy]. specialize (IH i H). lia.
Qed.

Lemma sum_ge_nth {A} (f : A -> nat) (x : A) l :
  forall i, nth_error l i = Some x -> (f x <= sumBy f l)%nat.
Proof.
  induction l as [|h t IH]; intros [|i] H; cbn [nth_error] in H;
    try discriminate H; cbn [sumBy].
  - injection H as ->. lia.
  - specialize (IH i H). lia.
Qed.

Lemma sum_le_length (l : list Consumer) :
  (sumBy alive l <= List.length l)%nat.
Proof.
  induction l as [|c t IH]; [reflexivity|].
  cbn [sumBy List.length]. destruct c; cbn [alive]; lia.
Qed.

Lemma calm_member (l : list Consumer) c :
  forallb calmConsumer l = true -> In c l -> calmConsumer c = true.
Proof. intros H Hin. exact (proj1 (forallb_forall _ _) H c Hin). Qed.

Lemma calm_setNth (c : Consumer) l :
  forall i,
    forallb calmConsumer l = true -> calmConsumer c = true ->
    forallb calmConsumer (setNth i c l) = true.
Proof.
  induction l as [|h t IH]; intros [|i] H Hc; cbn [setNth forallb] in *;
    try reflexivity; apply andb_true_iff in H as [Hh Ht];
    apply andb_true_iff; split; try assumption.
  apply IH; assumption.
Qed.

Lemma none_alive (l : list Consumer) :
  forallb calmConsumer l = true ->
  sumBy alive l = 0%nat -> forall c, In c l -> c = ConExit.
Proof.
  induction l as [|h t IH]; intros Hcalm H c Hin; [destruct Hin|].
  cbn [sumBy] in H. cbn [forallb] in Hcalm.
  apply andb_true_iff in Hcalm as [Hh Ht].
  destruct Hin as [<-|Hin].
  - destruct h; cbn [alive] in H; cbn [calmConsumer] in Hh;
      (reflexivity || lia || discriminate Hh).
  - apply IH; [exact Ht|lia|exact Hin].
Qed.

Lemma all_exit_sums (l : list Consumer) :
  (forall c, In c l -> c = ConExit) ->
  flat_map pendingList l = [] /\
  sumBy consumerWeight l = 0%nat /\
  sumBy alive l = 0%nat.
Proof.
  induction l as [|h t IH]; intros H; [repeat split|].
  assert (Hh : h = ConExit) by (apply H; left; reflexivity).
  destruct IH as (H1 & H2 & H3); [intros c Hc; apply H; right; exact Hc|].
  subst h. cbn [flat_map sumBy pendingList consumerWeight alive app].
  rewrite H1. repeat split; lia.
Qed.

Lemma repeat_ConRecv_sums n :
  sumBy alive (repeat ConRecv n) = n /\
  flat_map pendingList (repeat ConRecv n) = [] /\
  sumBy consumerWeight (repeat ConRecv n) = n.
Proof.
  induction n as [|n (H1 & H2 & H3)]; [repeat split|].
  cbn [repeat sumBy flat_map alive pendingList consumerWeight app].
  rewrite H1, H2, H3. repeat split.
Qed.

Lemma repeat_ConRecv_calm n : forallb calmConsumer (repeat ConRecv n) = true.
Proof. induction n as [|n IH]; [reflexivity|exact IH]. Qed.

(** Replacing one consumer's state replaces its share of the items
    that the consumers hold. *)
Lemma flat_setNth (c c0 : Consumer) l :
  forall i,
    nth_error l i = Some c0 ->
    exists others,
      Permutation (flat_map pendingList l) (pendingList c0 ++ others) /\
      Permutation (flat_map pendingList (setNth i c l))
                  (pendingList c ++ others).
Proof.
  induction l as [|h t IH]; intros [|i] H; cbn [nth_error] in H;
    try discriminate H.
  - injection H as ->. exists (flat_map pendingList t).
    cbn [setNth flat_map]. split; reflexivity.
  - destruct (IH i H) as (others & H1 & H2).
    exists (pendingList h ++ others). cbn [setNth flat_map].
    rewrite H1, H2. split; aac_reflexivity.
Qed.

(** Which consumer can move: one that is sending, else one that is
    receiving, else all have left. *)
Lemma consumers_cases (l : list Consumer) :
  forallb calmConsumer l = true ->
  (exists i feeds, nth_error l i = Some (ConSend feeds)) \/
  ((forall c, In c l -> c = ConRecv \/ c = ConExit) /\
   ((exists i, nth_error l i = Some ConRecv) \/
    (forall c, In c l -> c = ConExit))).
Proof.
  induction l as [|h t IH]; intros Hcalm.
  - right. split; [intros c []|right; intros c []].
  - cbn [forallb] in Hcalm. apply andb_true_iff in Hcalm as [Hh Ht].
    specialize (IH Ht).
    destruct h as [|feeds| |msg|]; try discriminate Hh.
    + destruct IH as [(i & feeds & H)|[Hall Hrest]].
      * left. exists (S i), feeds. exact H.
      * right. split.
        -- intros c [<-|Hc]; [left; reflexivity|apply Hall, Hc].
        -- left. exists 0%nat. reflexivity.
    + left. exists 0%nat, feeds. reflexivity.
    + destruct IH as [(i & feeds & H)|[Hall Hrest]].
      * left. exists (S i), feeds. exact H.
      * right. split.
        -- intros c [<-|Hc]; [right; reflexivity|apply Hall, Hc].
        -- destruct Hrest as [(i & H)|Hex].
           ++ left. exists (S i). exact H.
           ++ right. intros c [<-|Hc]; [reflexivity|apply Hex, Hc].
Qed.

Lemma sendTexts_fetchLog fl W k rss : sendTexts (fetchLog fl W k rss) = [].
Proof.
  unfold fetchLog, debugLines.
  destruct (ParseURL W k (Url rss)) as [feed|err]; [|reflexivity].
  destruct (DebugMode fl); [|reflexivity].
  induction (gofeed.Items feed) as [|item rest IH]; [reflexivity|exact IH].
Qed.

Lemma sendTexts_snoc_log evs line :
  sendTexts (evs ++ [EvLog line]) = sendTexts evs.
Proof. rewrite sendTexts_app. cbn [sendTexts]. apply app_nil_r. Qed.

Lemma sendTexts_length evs : List.length (sendTexts evs) = countSends evs.
Proof.
  unfold countSends.
  induction evs as [|e rest IH]; [reflexivity|].
  destruct e; cbn [sendTexts filter isSend List.length]; lia.
Qed.

Lemma beatEvents_texts W b chat k cnt :
  sendTexts (beatEvents W (Some b) chat k cnt) = beatTexts (PushExit cnt).
Proof.
  unfold beatEvents, beatTexts. destruct (cnt =? 0); [|reflexivity].
  destruct (Send W k b chat beatText); reflexivity.
Qed.


Lemma sumBy_app {A} (f : A -> nat) l1 l2 :
  sumBy f (l1 ++ l2) = (sumBy f l1 + sumBy f l2)%nat.
Proof.
  induction l1 as [|a t IH]; [reflexivity|]. cbn [app sumBy]. lia.
Qed.

(** With a worker count that [wg.Add] accepts, [main] reaches
    [wg.Wait()] with all consumers started. *)
Lemma initSys_started fl infos :
  0 <= GoroutineNum fl < 2 ^ 31 ->
  initSys fl infos
  = mkSys initGlobals (mkChan [] false) (mkChan [] false) (ProdRun infos)
          (repeat ConRecv (Z.to_nat (GoroutineNum fl))) (GoroutineNum fl)
          PushInit MainWait None.
Proof.
  intros H. unfold initSys. rewrite wrap32_small by lia.
  destruct (Z.ltb_spec (GoroutineNum fl) 0); [lia|reflexivity].
Qed.

Section Pipeline.

Variables (fl : Flags) (W : World) (infos : list RssInfo).
Variables (b : tgbotapi.BotAPI) (items : RssInfo -> list gofeed.Item).

Hypothesis Hlive : DebugMode fl = false.
Hypothesis Hworkers : 1 <= GoroutineNum fl < 2 ^ 31.
Hypothesis Hbot : NewBotAPI W (BotToken fl) = Ok b.
Hypothesis Hitems :
  forall info k, In info infos -> fetchItems fl W k info = items info.

Local Abbreviation Inv' := (Inv fl infos b items).
Local Abbreviation measure' :=
  (measure (fun info => List.length (items info))).

Lemma Inv_init : Inv' (initSys fl infos).
Proof.
  unfold initSys.
  rewrite wrap32_small by lia.
  destruct (Z.ltb_spec (GoroutineNum fl) 0); [lia|].
  destruct (repeat_ConRecv_sums (Z.to_nat (GoroutineNum fl))) as (Ha & Hp & _).
  constructor; cbn [crashed consumers wg infoChan tgChan producer pusher
                    mainG globals closed buf initGlobals ctxDone onceDone
                    bot trace].
  - reflexivity.
  - split; [apply repeat_ConRecv_calm|split; reflexivity].
  - apply repeat_length.
  - rewrite Ha. lia.
  - split; discriminate.
  - intros Hin. apply repeat_spec in Hin. discriminate.
  - split; reflexivity.
  - intros Hm. contradiction.
  - discriminate.
  - split; [discriminate|intros [cnt Hc]; discriminate].
  - discriminate.
  - reflexivity.
  - intros Hp'. contradiction.
  - unfold toFetch. cbn. intros info. rewrite app_nil_r. auto.
  - exists []. unfold toFetch. cbn [producer infoChan buf counterOf beatTexts
                                   sendTexts map List.length app].
    rewrite Hp, app_nil_r. repeat split. reflexivity.
Qed.

Ltac open_state s HI :=
  destruct s as [g [ib icl] [tb tcl] pr cs w pu m cr];
  destruct HI as [Ha [Hcc [Hcp Hcm]] Hw Hwg Hp He Ho Hj Hd Hc Hm Hon Hb Hin
                     Hflow];
  unfold toFetch in *;
  cbn [crashed consumers wg infoChan tgChan producer pusher mainG globals
       closed buf] in *.

Ltac fields :=
  cbn [crashed consumers wg infoChan tgChan producer pusher mainG globals
       closed buf].

Ltac fields_in H :=
  cbn [crashed consumers wg infoChan tgChan producer pusher mainG globals
       closed buf] in H.

Ltac glob := cbn [afterFetch afterSends addTrace onceSet bot onceDone ctxDone
                  fetches sends trace].

Ltac calm_field :=
  match goal with
  | |- forallb calmConsumer _ = true /\ _ /\ _ =>
      split; [first [assumption | apply calm_setNth; [assumption|reflexivity]]
             |split; first [assumption | reflexivity]]
  end.

Ltac easy_field :=
  try solve [ assumption | discriminate | reflexivity
            | intros _; assumption | intros _; reflexivity
            | split; reflexivity | split; discriminate
            | calm_field ].

Lemma Inv_producer s s' :
  Inv' s -> InfoProducer_step s = Some s' ->
  Inv' s' /\ (measure' s' < measure' s)%nat.
Proof.
  intros HI Hs. unfold InfoProducer_step in Hs. open_state s HI.
  destruct pr as [[|info rest]|]; [| |discriminate].
  - injection Hs as <-. split.
    + constructor; unfold toFetch; fields; easy_field.
      intros Hex. split; [reflexivity|]. apply He, Hex.
    + unfold measure. fields. cbn [sumBy]. lia.
  - unfold full in Hs. fields_in Hs.
    destruct (chanCap <=? List.length ib)%nat eqn:Hf; [discriminate|].
    injection Hs as <-. split.
    + constructor; unfold toFetch; fields; easy_field.
      * split; [intros Hcl; apply Hp in Hcl; discriminate|discriminate].
      * intros Hex. destruct (He Hex) as [Hcl _].
        apply Hp in Hcl. discriminate.
      * intros i Hi. apply Hin.
        apply in_app_or in Hi as [Hi|Hi]; [apply in_or_app; left; right; exact Hi|].
        apply in_app_or in Hi as [Hi|[<-|[]]];
          apply in_or_app; [right; exact Hi|left; left; reflexivity].
      * destruct Hflow as (sent & H1 & H2 & H3). exists sent.
        split; [exact H1|]. split; [exact H2|].
        rewrite <- H3. rewrite !flat_map_app. cbn [flat_map].
        aac_reflexivity.
    + unfold measure. fields. rewrite sumBy_app. cbn [sumBy]. lia.
Qed.

Lemma Inv_consumer i s s' :
  Inv' s -> InfoComsumer_step fl W i s = Some s' ->
  Inv' s' /\ (measure' s' < measure' s)%nat.
Proof.
  intros HI Hs. unfold InfoComsumer_step in Hs. open_state s HI. fields_in Hs.
  destruct (nth_error cs i) as [c|] eqn:Hi; [|discriminate].
  assert (Hmem : In c cs) by (eapply nth_error_In; exact Hi).
  pose proof (sum_setNth alive) as Sa.
  pose proof (sum_setNth consumerWeight) as Sw.
  pose proof (calm_member cs c Hcc Hmem) as Hcalm.
  destruct c as [|feeds| |msg|];
    [| |discriminate|discriminate Hcalm|discriminate Hcalm].
  - destruct ib as [|info ib'].
    + destruct icl; [|discriminate].
      pose proof (sum_ge_nth alive _ _ _ Hi) as Hge. cbn [alive] in Hge.
      pose proof (sum_le_length cs) as Hle.
      specialize (Sa ConExit _ cs i Hi). cbn [alive] in Sa.
      specialize (Sw ConExit _ cs i Hi). cbn [consumerWeight] in Sw.
      destruct (flat_setNth ConExit _ cs i Hi) as (others & Fo & Fn).
      cbn [pendingList app] in Fo, Fn.
      rewrite wrap32_small in Hs by lia.
      destruct (Z.ltb_spec (w - 1) 0); [lia|].
      injection Hs as <-. split.
      * constructor; unfold toFetch; fields; easy_field.
        -- now rewrite length_setNth.
        -- lia.
        -- intros Hne c Hmc. apply In_setNth in Hmc as [->|Hmc];
             [reflexivity|apply (Hj Hne), Hmc].
        -- destruct Hflow as (sent & H1 & H2 & H3). exists sent.
           split; [exact H1|]. split; [exact H2|].
           rewrite <- H3, Fn, Fo. reflexivity.
      * unfold measure. fields. lia.
    + rewrite GetPostInfo_spec in Hs. injection Hs as <-.
      assert (Hinfo : In info infos).
      { apply Hin. apply in_or_app. right. left. reflexivity. }
      rewrite (Hitems info (fetches g) Hinfo).
      specialize (Sa (ConSend (items info)) _ cs i Hi).
      specialize (Sw (ConSend (items info)) _ cs i Hi).
      cbn [alive consumerWeight] in Sa, Sw.
      destruct (flat_setNth (ConSend (items info)) _ cs i Hi)
        as (others & Fo & Fn).
      cbn [pendingList app] in Fo, Fn.
      assert (Hwait : m = MainWait).
      { destruct m; [reflexivity| | |];
          (assert (Hx : ConRecv = ConExit)
            by (apply Hj; [discriminate|exact Hmem]); discriminate Hx). }
      split.
      * constructor; unfold toFetch; fields; glob; easy_field.
        -- now rewrite length_setNth.
        -- lia.
        -- intros Hex. apply In_setNth in Hex as [Hex|Hex]; [discriminate|].
           destruct (He Hex) as [_ He']. discriminate.
        -- intros Hne. contradiction.
        -- intros i0 Hi0. apply Hin.
           apply in_app_or in Hi0 as [Hi0|Hi0]; apply in_or_app;
             [left; exact Hi0|right; right; exact Hi0].
        -- destruct Hflow as (sent & H1 & H2 & H3). exists sent.
           split; [exact H1|]. split.
           ++ rewrite sendTexts_app, sendTexts_fetchLog, app_nil_r. exact H2.
           ++ rewrite <- H3, Fn, Fo. rewrite !flat_map_app. cbn [flat_map].
              aac_reflexivity.
      * unfold measure, descWeight. fields. cbn [sumBy]. lia.
  - assert (Hwait : m = MainWait).
    { destruct m; [reflexivity| | |];
        (assert (Hx : ConSend feeds = ConExit)
          by (apply Hj; [discriminate|exact Hmem]); discriminate Hx). }
    assert (Hopen : tcl = false) by (apply Ho; exact Hwait).
    subst tcl.
    destruct feeds as [|feed rest].
    + injection Hs as <-.
      specialize (Sa ConRecv _ cs i Hi).
      specialize (Sw ConRecv _ cs i Hi).
      cbn [alive consumerWeight List.length] in Sa, Sw.
      destruct (flat_setNth ConRecv _ cs i Hi) as (others & Fo & Fn).
      cbn [pendingList app] in Fo, Fn.
      split.
      * constructor; unfold toFetch; fields; easy_field.
        -- now rewrite length_setNth.
        -- lia.
        -- intros Hex. apply In_setNth in Hex as [Hex|Hex]; [discriminate|].
           apply He, Hex.
        -- intros Hne. contradiction.
        -- destruct Hflow as (sent & H1 & H2 & H3). exists sent.
           split; [exact H1|]. split; [exact H2|].
           rewrite <- H3, Fn, Fo. reflexivity.
      * unfold measure. fields. lia.
    + unfold full in Hs. fields_in Hs.
      destruct (chanCap <=? List.length tb)%nat; [discriminate|].
      injection Hs as <-.
      specialize (Sa (ConSend rest) _ cs i Hi).
      specialize (Sw (ConSend rest) _ cs i Hi).
      cbn [alive consumerWeight List.length] in Sa, Sw.
      destruct (flat_setNth (ConSend rest) _ cs i Hi) as (others & Fo & Fn).
      cbn [pendingList] in Fo, Fn.
      change (feed :: rest) with ([feed] ++ rest) in Fo.
      split.
      * constructor; unfold toFetch; fields; easy_field.
        -- now rewrite length_setNth.
        -- lia.
        -- intros Hex. apply In_setNth in Hex as [Hex|Hex]; [discriminate|].
           apply He, Hex.
        -- intros Hne. contradiction.
        -- intros cnt Hpu. destruct (Hd cnt Hpu) as [Hx _]. discriminate.
        -- destruct Hflow as (sent & H1 & H2 & H3). exists sent.
           split; [exact H1|]. split; [exact H2|].
           rewrite <- H3, Fn, Fo. aac_reflexivity.
      * unfold measure. fields. rewrite length_app. cbn [List.length]. lia.
Qed.

Lemma Inv_pusher s s' :
  Inv' s -> PushPost_step fl W s = Some s' ->
  Inv' s' /\ (measure' s' < measure' s)%nat.
Proof.
  intros HI Hs. unfold PushPost_step in Hs. open_state s HI. fields_in Hs.
  destruct pu as [|cnt|cnt|msg|msg];
    [| |discriminate|discriminate Hcp|discriminate Hcp].
  - rewrite (initBot_live fl W g b Hlive (Hon eq_refl) Hbot) in Hs.
    injection Hs as <-. split.
    + constructor; unfold toFetch; fields; glob; easy_field.
      * split; [intros Hx; apply Hc in Hx as [c Hx]; discriminate
               |intros [c Hx]; discriminate].
      * intros Hx. apply Hm in Hx as [c Hx]. discriminate.
    + unfold measure. fields. lia.
  - assert (Hbt : bot g = Some b) by (apply Hb; discriminate).
    destruct tb as [|feed tb'].
    + destruct tcl; [|discriminate].
      rewrite pushBeat_spec in Hs.
      rewrite Hbt in Hs. unfold beatResult in Hs.
      assert (Hr : (if cnt =? 0 then Val tt else Val tt) = Val tt)
        by (destruct (cnt =? 0); reflexivity).
      rewrite Hr in Hs. injection Hs as <-. split.
      * constructor; unfold toFetch; fields; unfold done; glob; easy_field.
        -- split; [intros _; exists cnt; reflexivity|reflexivity].
        -- intros _. exists cnt. reflexivity.
        -- destruct Hflow as (sent & H1 & H2 & H3). exists sent.
           cbn [counterOf] in *.
           split; [exact H1|]. split; [|exact H3].
           rewrite !sendTexts_app, beatEvents_texts, H2.
           cbn [beatTexts sendTexts]. now rewrite !app_nil_r.
      * unfold measure. fields. lia.
    + rewrite (pushItem_live fl W feed cnt g b Hlive Hbt) in Hs.
      injection Hs as <-. split.
      * constructor; unfold toFetch; fields; glob; easy_field.
        -- split; [intros Hx; apply Hc in Hx as [c Hx]; discriminate
                  |intros [c Hx]; discriminate].
        -- intros Hx. apply Hm in Hx as [c Hx]. discriminate.
        -- destruct Hflow as (sent & H1 & H2 & H3). exists (sent ++ [feed]).
           cbn [counterOf beatTexts] in *.
           split; [|split].
           ++ unfold int_incr. rewrite H1, wrap64_add_l. f_equal.
              rewrite length_app. cbn [List.length]. lia.
           ++ rewrite sendTexts_app.
              destruct (itemEvents_sends W b (ChannelID fl) (sends g) cnt feed)
                as [-> _].
              rewrite H2, map_app, !app_nil_r. reflexivity.
           ++ rewrite <- H3. change (feed :: tb') with ([feed] ++ tb').
              aac_reflexivity.
      * unfold measure. fields. cbn [List.length]. lia.
Qed.

Lemma Inv_main s s' :
  Inv' s -> main_step s = Some s' ->
  Inv' s' /\ (measure' s' < measure' s)%nat.
Proof.
  intros HI Hs. unfold main_step in Hs. open_state s HI. fields_in Hs.
  destruct m; [| |discriminate|discriminate].
  - destruct (Z.eqb_spec w 0) as [Hw0|]; [|discriminate].
    assert (Hopen : tcl = false) by (apply Ho; reflexivity). subst tcl.
    unfold logPrintln, emit in Hs.
    cbn [bot onceDone ctxDone fetches sends trace] in Hs.
    injection Hs as <-.
    assert (Hnone : forall c, In c cs -> c = ConExit).
    { apply none_alive; [exact Hcc|lia]. }
    split.
    + constructor; unfold toFetch; fields; glob; easy_field.
      * intros cnt Hpu. destruct (Hd cnt Hpu) as [Hx _]. discriminate.
      * destruct Hflow as (sent & H1 & H2 & H3). exists sent.
        split; [exact H1|]. split; [|exact H3].
        rewrite !sendTexts_snoc_log. exact H2.
    + unfold measure. fields. lia.
  - destruct (ctxDone g) eqn:Hctx; [|discriminate].
    unfold logPrintln, emit in Hs.
    cbn [bot onceDone ctxDone fetches sends trace] in Hs.
    injection Hs as <-. split.
    + constructor; unfold toFetch; fields; glob; easy_field.
      * split; [intros Hx; apply Ho in Hx; discriminate|discriminate].
      * intros _. apply Hj. discriminate.
      * rewrite Hctx. exact Hc.
      * intros _. apply Hc. reflexivity.
      * destruct Hflow as (sent & H1 & H2 & H3). exists sent.
        split; [exact H1|]. split; [|exact H3].
        rewrite sendTexts_snoc_log. exact H2.
    + unfold measure. fields. lia.
Qed.

Lemma Inv_step a s s' :
  Inv' s -> step fl W a s = Some s' ->
  Inv' s' /\ (measure' s' < measure' s)%nat.
Proof.
  intros HI Hs. unfold step in Hs.
  destruct (exited s); [discriminate|].
  destruct a.
  - apply Inv_producer; assumption.
  - eapply Inv_consumer; eassumption.
  - apply Inv_pusher; assumption.
  - apply Inv_main; assumption.
Qed.

Lemma Inv_run sched :
  forall s s',
    Inv' s -> run fl W sched s = Some s' ->
    Inv' s' /\ (List.length sched + measure' s' <= measure' s)%nat.
Proof.
  induction sched as [|a rest IH]; intros s s' HI Hr; cbn [run] in Hr.
  - injection Hr as <-. split; [exact HI|cbn; lia].
  - destruct (step fl W a s) as [s1|] eqn:Hs; [|discriminate].
    destruct (Inv_step a s s1 HI Hs) as [HI1 Hm1].
    destruct (IH s1 s' HI1 Hr) as [HI' Hm']. split; [exact HI'|].
    cbn [List.length]. lia.
Qed.

(** A run that is not over can always take a step. *)
Lemma Inv_progress s :
  Inv' s -> finished s = false -> exists a s', step fl W a s = Some s'.
Proof.
  intros HI Hfin.
  assert (Hex : exited s = false).
  { unfold finished in Hfin. unfold exited.
    destruct (crashed s); [discriminate|].
    destruct (mainG s); (reflexivity || discriminate). }
  unfold step. rewrite Hex. clear Hex. unfold finished in Hfin.
  open_state s HI. subst cr.
  destruct pu as [|cnt|cnt|msg|msg];
    [| | |discriminate Hcp|discriminate Hcp].
  - exists APusher. unfold PushPost_step. fields.
    rewrite (initBot_live fl W g b Hlive (Hon eq_refl) Hbot).
    eexists. reflexivity.
  - destruct tb as [|feed tb'].
    + destruct tcl.
      * exists APusher. unfold PushPost_step. fields.
        destruct (pushBeat fl W cnt g) as [[u|msg] g'];
          eexists; reflexivity.
      * destruct (consumers_cases cs Hcc) as [(i & feeds & Hi)|[Hall Hrest]].
        -- exists (AConsumer i). unfold InfoComsumer_step. fields. rewrite Hi.
           destruct feeds as [|feed rest]; eexists; reflexivity.
        -- destruct Hrest as [(i & Hi)|Hex].
           ++ destruct ib as [|info ib'].
              ** destruct icl.
                 --- exists (AConsumer i). unfold InfoComsumer_step. fields.
                     rewrite Hi.
                     destruct (wrap32 (w - 1) <? 0); eexists; reflexivity.
                 --- exists AProducer. unfold InfoProducer_step. fields.
                     destruct pr as [[|info rest]|].
                     +++ eexists. reflexivity.
                     +++ eexists. reflexivity.
                     +++ assert (Hx : false = true) by (apply Hp; reflexivity).
                         discriminate Hx.
              ** exists (AConsumer i). unfold InfoComsumer_step. fields.
                 rewrite Hi, GetPostInfo_spec. eexists. reflexivity.
           ++ exists AMain. unfold main_step. fields.
              assert (Hm0 : m = MainWait) by (apply Ho; reflexivity).
              subst m.
              destruct (all_exit_sums cs Hex) as (_ & _ & H0).
              rewrite H0 in Hwg. subst w. eexists. reflexivity.
    + exists APusher. unfold PushPost_step. fields.
      destruct (pushItem fl W feed cnt g) as [[c|msg] g'];
        eexists; reflexivity.
  - destruct (Hd cnt eq_refl) as [Hcl Hbuf]. subst tcl tb.
    assert (Hctx : ctxDone g = true) by (apply Hc; exists cnt; reflexivity).
    exists AMain. unfold main_step. fields.
    destruct m.
    + assert (Hx : true = false) by (apply Ho; reflexivity). discriminate Hx.
    + rewrite Hctx. eexists. reflexivity.
    + discriminate Hfin.
    + discriminate Hcm.
Qed.

(** When [main] has returned, the entries handed to the messaging
    client are, up to their order, the entries of all subscriptions;
    the counter has counted them, and a heartbeat followed only if
    the counter was 0. *)
Lemma Inv_final s :
  Inv' s -> mainG s = MainExit ->
  exists sent,
    Permutation sent (flat_map items infos) /\
    pusher s = PushExit (wrap64 (Z.of_nat (List.length sent))) /\
    sendTexts (trace (globals s))
    = map makeDisplayMsg sent ++ beatTexts (pusher s).
Proof.
  intros HI Hexit. open_state s HI. subst m.
  destruct (Hm eq_refl) as [cnt ->].
  destruct (Hd cnt eq_refl) as [_ ->].
  assert (Hall : forall c, In c cs -> c = ConExit)
    by (apply Hj; discriminate).
  destruct (all_exit_sums cs Hall) as (Hpend & _ & _).
  assert (Hsome : In ConExit cs).
  { destruct cs as [|c cs']; [cbn in Hw; lia|].
    rewrite (Hall c (or_introl eq_refl)). left. reflexivity. }
  destruct (He Hsome) as [Hcl ->].
  assert (Hpr : pr = ProdExit) by (apply Hp; exact Hcl). subst pr.
  destruct Hflow as (sent & H1 & H2 & H3).
  cbn [counterOf app flat_map] in *.
  rewrite Hpend, app_nil_r in H3.
  exists sent. split; [exact H3|]. split; [now rewrite H1|exact H2].
Qed.

End Pipeline.

Lemma append_empty_r (s : string) : (s ++ "")%string = s.
Proof. induction s as [|c s IH]; [reflexivity|]. cbn. now rewrite IH. Qed.

Lemma parse_error_line url err :
  Sprintf "parse url err: url=%s, %v" [url; err]
  = ("parse url err: url=" ++ url ++ ", " ++ err)%string.
Proof.
  cbn. rewrite append_empty_r. reflexivity.
Qed.

(* ================================================================= *)
(** * The claims *)

(** ** The window *)

(** C7 (as amended): for every clock reading and every look-back of
    0 to 2562047 hours (the look-backs whose length in nanoseconds is
    an int64), the window starts at the hour-truncation of now minus
    the look-back and ends at the hour-truncation of now; truncation
    keeps year, month, day and hour and zeroes minute, second and
    nanosecond. *)
Theorem window_is_truncated_lookback (ns h : Z) :
  0 <= h <= maxHours ->
  let now := timeOfUnixNano ns in
  windowStart now h = Unix (truncateToHour (minusHours now h)) /\
  windowEnd now = Unix (truncateToHour now) /\
  (forall t,
      Year (truncateToHour t) = Year t /\
      Month (truncateToHour t) = Month t /\
      Day (truncateToHour t) = Day t /\
      HourOf (truncateToHour t) = HourOf t /\
      Minute (truncateToHour t) = 0 /\
      SecondOf (truncateToHour t) = 0 /\
      NanosecondOf (truncateToHour t) = 0).
Proof.
  intros H now. split; [|split].
  - apply windowStart_exact. unfold maxHours in *. lia.
  - apply windowEnd_exact.
  - exact truncateToHour_fields.
Qed.

Lemma window_is_truncated_lookback_witness :
  0 <= 3 <= maxHours /\
  windowStart (timeOfUnixNano Sample.clock) 3 = 1704056400 /\
  windowEnd (timeOfUnixNano Sample.clock) = 1704067200.
Proof.
  assert (H : 0 <= 3 <= maxHours) by (unfold maxHours; lia).
  split; [exact H|].
  destruct (window_is_truncated_lookback Sample.clock 3 H) as (Hs & He & _).
  split.
  - rewrite Hs. vm_compute. reflexivity.
  - rewrite He. vm_compute. reflexivity.
Defined.

(** C7 (as stated) fails: with a look-back of 2562048 hours the
    duration wraps around and the window starts in the future, not at
    the truncation of now minus the look-back. *)
Lemma window_lookback_overflow :
  let now := timeOfUnixNano Sample.clock in
  0 <= 2562048 /\
  windowStart now 2562048 <> Unix (truncateToHour (minusHours now 2562048)).
Proof.
  split; [lia|]. intros H. vm_compute in H. discriminate H.
Qed.

(** C8 (as amended): for every look-back from -2562047 to 0 hours the
    window has start >= end, no timestamp lies in it, and the fetch
    returns no items, whatever the parser answers. *)
Theorem nonpositive_lookback_fetches_nothing
        (fl : Flags) (W : World) (rss : RssInfo) (g : Globals) :
  - maxHours <= StartBy fl <= 0 ->
  let now := timeOfUnixNano (ClockNanos W (fetches g)) in
  windowEnd now <= windowStart now (StartBy fl) /\
  (forall t, ~ (windowStart now (StartBy fl) <= t < windowEnd now)) /\
  fst (GetPostInfo fl W rss g) = Val [].
Proof.
  intros H now.
  assert (Hw : windowEnd now <= windowStart now (StartBy fl)).
  { subst now. rewrite windowStart_exact by (unfold maxHours in *; lia).
    rewrite windowEnd_exact. apply truncateToHour_mono.
    unfold minusHours. cbn [tsec]. lia. }
  split; [exact Hw|]. split; [intros t; lia|].
  rewrite GetPostInfo_spec. cbn [fst]. f_equal.
  unfold fetchItems, fetchWindow. cbn [fst snd]. fold now.
  destruct (ParseURL W (fetches g) (Url rss)) as [feed|err]; [|reflexivity].
  induction (gofeed.Items feed) as [|item rest IH]; [reflexivity|].
  cbn [filter]. rewrite IH, keepItem_effective. unfold inWindow.
  destruct (effectiveTimestamp item) as [t|]; [|reflexivity].
  destruct (Z.leb_spec (windowStart now (StartBy fl)) (Unix t));
    [|reflexivity].
  destruct (Z.ltb_spec (Unix t) (windowEnd now)); [lia|reflexivity].
Qed.

Lemma nonpositive_lookback_fetches_nothing_witness :
  - maxHours <= StartBy (Sample.flags false (-2) 5) <= 0 /\
  fst (GetPostInfo (Sample.flags false (-2) 5) Sample.world Sample.subB
                   initGlobals) = Val [].
Proof.
  assert (H : - maxHours <= StartBy (Sample.flags false (-2) 5) <= 0)
    by (unfold maxHours; cbn; lia).
  split; [exact H|].
  apply (nonpositive_lookback_fetches_nothing
           (Sample.flags false (-2) 5) Sample.world Sample.subB initGlobals H).
Defined.

(** C8 (as stated) fails: with a look-back of -2562048 hours the
    duration wraps around, the window opens 292 years before now, and
    the fetch returns entries. *)
Lemma negative_lookback_overflow :
  let fl := Sample.flags false (-2562048) 5 in
  let now := timeOfUnixNano (ClockNanos Sample.world 0) in
  StartBy fl <= 0 /\
  windowStart now (StartBy fl) < windowEnd now /\
  fst (GetPostInfo fl Sample.world Sample.subB initGlobals)
  = Val [Sample.fresh1; Sample.stale; Sample.fresh2].
Proof.
  split; [cbn; lia|]. split; vm_compute; reflexivity.
Qed.

(** ** The filter *)

(** C5: when the parser succeeds (and the clock is not before the Unix
    epoch) the fetch returns, in feed order, exactly the entries whose
    effective timestamp (published, else updated) is non-null,
    non-zero and within [start, end) of the computed window. *)
Theorem fetch_keeps_exactly_qualifying
        (fl : Flags) (W : World) (rss : RssInfo) (g : Globals)
        (feed : gofeed.Feed) :
  ParseURL W (fetches g) (Url rss) = Ok feed ->
  0 <= ClockNanos W (fetches g) ->
  let now := timeOfUnixNano (ClockNanos W (fetches g)) in
  let start := windowStart now (StartBy fl) in
  let end_ := windowEnd now in
  exists res,
    fst (GetPostInfo fl W rss g) = Val res /\
    res = filter (qualifies start end_) (gofeed.Items feed) /\
    forall item,
      In item (gofeed.Items feed) ->
      (In item res <->
       exists t, effectiveTimestamp item = Some t /\ IsZero t = false /\
                 start <= Unix t < end_).
Proof.
  intros Hp Hc now start end_.
  exists (filter (qualifies start end_) (gofeed.Items feed)).
  split; [|split; [reflexivity|]].
  - rewrite GetPostInfo_spec. cbn [fst]. f_equal.
    unfold fetchItems, fetchWindow. rewrite Hp. cbn [fst snd].
    fold now. fold start. fold end_.
    apply filter_ext. intros item. apply keepItem_qualifies.
    apply windowStart_after_zero. exact Hc.
  - intros item Hin. rewrite filter_In. unfold qualifies.
    split.
    + intros [_ Hq]. destruct (effectiveTimestamp item) as [t|]; [|discriminate].
      exists t. repeat rewrite andb_true_iff in Hq.
      destruct Hq as [[Hz Hs] He].
      apply negb_true_iff in Hz. apply Z.leb_le in Hs. apply Z.ltb_lt in He.
      auto.
    + intros (t & Ht & Hz & Hs & He). split; [exact Hin|].
      rewrite Ht, Hz. cbn [negb andb].
      apply andb_true_iff. split; [apply Z.leb_le|apply Z.ltb_lt]; lia.
Qed.

Lemma fetch_keeps_exactly_qualifying_witness :
  ParseURL Sample.world 0 (Url Sample.subB) = Ok Sample.feed /\
  0 <= ClockNanos Sample.world 0 /\
  fst (GetPostInfo Sample.live Sample.world Sample.subB initGlobals)
  = Val [Sample.fresh1; Sample.fresh2].
Proof.
  assert (Hp : ParseURL Sample.world (fetches initGlobals) (Url Sample.subB)
               = Ok Sample.feed) by reflexivity.
  assert (Hc : 0 <= ClockNanos Sample.world (fetches initGlobals))
    by (vm_compute; discriminate).
  split; [exact Hp|]. split; [exact Hc|].
  destruct (fetch_keeps_exactly_qualifying
              Sample.live Sample.world Sample.subB initGlobals Sample.feed
              Hp Hc) as (res & Hres & Heq & _).
  rewrite Hres, Heq. vm_compute. reflexivity.
Defined.

(** C10: an entry with neither a published nor an updated timestamp
    has a null effective timestamp and is in no fetch result, whatever
    the window; and when the fallback of [getDatetime] is taken, an
    entry is admitted only if its updated timestamp (the one checked
    last) is present and zero-valued. *)
Theorem undated_entry_is_excluded :
  (forall item,
      gofeed.PublishedParsed item = None ->
      gofeed.UpdatedParsed item = None ->
      getDatetime [gofeed.PublishedParsed item; gofeed.UpdatedParsed item]
      = Val None /\
      (forall start end_, keepItem start end_ item = false) /\
      (forall fl W rss g res,
          fst (GetPostInfo fl W rss g) = Val res -> ~ In item res)) /\
  (forall item start end_,
      firstValid [gofeed.PublishedParsed item; gofeed.UpdatedParsed item]
      = None ->
      keepItem start end_ item = true ->
      exists t, gofeed.UpdatedParsed item = Some t /\ IsZero t = true).
Proof.
  split.
  - intros item Hp Hu.
    assert (Hk : forall start end_, keepItem start end_ item = false).
    { intros. rewrite keepItem_effective. unfold effectiveTimestamp.
      now rewrite Hp, Hu. }
    split; [now rewrite Hp, Hu|]. split; [exact Hk|].
    intros fl W rss g res Hres Hin.
    rewrite GetPostInfo_spec in Hres. cbn [fst] in Hres.
    injection Hres as <-. unfold fetchItems in Hin.
    destruct (ParseURL W (fetches g) (Url rss)); [|exact Hin].
    apply filter_In in Hin as [_ Hin]. rewrite Hk in Hin. discriminate.
  - intros item start end_ Hf Hk.
    unfold keepItem, getDatetime in Hk. rewrite Hf in Hk.
    cbn [last] in Hk. cbn [firstValid] in Hf.
    destruct (gofeed.PublishedParsed item) as [p|];
      destruct (gofeed.UpdatedParsed item) as [u|];
      try discriminate Hk;
      exists u; (split; [reflexivity|]).
    + destruct (IsZero p); cbn [negb] in Hf; [|discriminate].
      destruct (IsZero u); [reflexivity|discriminate].
    + destruct (IsZero u); [reflexivity|discriminate].
Qed.

Lemma undated_entry_is_excluded_witness :
  keepItem (windowStart (timeOfUnixNano Sample.clock) 3)
           (windowEnd (timeOfUnixNano Sample.clock)) Sample.undated = false /\
  (exists t, gofeed.UpdatedParsed Sample.zeroed = Some t /\ IsZero t = true).
Proof.
  destruct undated_entry_is_excluded as [Hnone Hzero].
  split.
  - destruct (Hnone Sample.undated eq_refl eq_refl) as (_ & Hk & _).
    apply Hk.
  - apply (Hzero Sample.zeroed (Unix (mkTime 0 0)) (Unix (mkTime 0 0) + 1)).
    + reflexivity.
    + vm_compute. reflexivity.
Defined.

(** ** The delivery stage *)

(** C1: in debug mode the items received are logged and not sent, but
    the run does not stay free of send attempts: at the end of the
    queue the counter is still zero and the heartbeat send is called
    on the client that was never constructed, which panics. *)
Theorem debug_run_attempts_heartbeat :
  PushPost Sample.debug Sample.world [Sample.fresh1] initGlobals
  = (Panic nilDeref,
     mkGlobals None true true 0 1
               [infoEvent Sample.fresh1; EvSend None 42 beatText; EvDone]) /\
  PushPost Sample.debug Sample.world [] initGlobals
  = (Panic nilDeref,
     mkGlobals None true true 0 1 [EvSend None 42 beatText; EvDone]).
Proof. split; vm_compute; reflexivity. Qed.

(** C2 (as stated) fails: on the same queue the debug run leaves the
    counter at 0 where the live run counts, and on ten items the live
    run pauses once where the debug run never pauses. *)
Lemma debug_counts_differ :
  let ten := repeat Sample.fresh1 10 in
  fst (pushStage Sample.debug Sample.world [Sample.fresh1] initGlobals)
  <> fst (pushStage Sample.live Sample.world [Sample.fresh1] initGlobals) /\
  countPauses (trace (snd (pushStage Sample.debug Sample.world ten initGlobals)))
  <> countPauses (trace (snd (pushStage Sample.live Sample.world ten initGlobals))).
Proof.
  split; intros H; vm_compute in H; discriminate H.
Qed.

(** C2 (as amended): on the same queue, a debug run logs one line per
    item and performs no send, no counter increment (the counter stays
    0) and no pause; a live run logs the same line for every item,
    increments the counter once per item and, below 2^63 items, pauses
    once for every tenth item. *)
Theorem debug_skips_counting_and_pacing
        (fld fll : Flags) (W : World) (feeds : list gofeed.Item)
        (b : tgbotapi.BotAPI) :
  DebugMode fld = true ->
  DebugMode fll = false ->
  NewBotAPI W (BotToken fll) = Ok b ->
  (exists gd,
      pushStage fld W feeds initGlobals = (Val 0, gd) /\
      trace gd = map infoEvent feeds /\
      countSends (trace gd) = 0%nat /\
      countPauses (trace gd) = 0%nat) /\
  (exists gl,
      pushStage fll W feeds initGlobals
      = (Val (wrap64 (Z.of_nat (List.length feeds))), gl) /\
      trace gl = liveEvents W b (ChannelID fll) 0 0 feeds /\
      (forall feed, In feed feeds -> In (infoEvent feed) (trace gl)) /\
      countSends (trace gl) = List.length feeds /\
      (Z.of_nat (List.length feeds) < 2 ^ 63 ->
       wrap64 (Z.of_nat (List.length feeds)) = Z.of_nat (List.length feeds) /\
       Z.of_nat (countPauses (trace gl)) = Z.of_nat (List.length feeds) / 10)).
Proof.
  intros Hd Hl Hn. split.
  - eexists. split; [apply pushStage_debug; [exact Hd|reflexivity]|].
    cbn [trace addTrace onceSet initGlobals app].
    split; [reflexivity|]. apply infoEvents_quiet.
  - eexists. split; [apply (pushStage_live fll W feeds initGlobals b);
                     [exact Hl|reflexivity|exact Hn]|].
    cbn [trace afterSends onceSet initGlobals app sends].
    split; [reflexivity|]. split; [|split].
    + intros feed Hin. eapply liveEvents_infos; [reflexivity|exact Hin].
    + apply liveEvents_sends.
    + intros Hlt. split.
      * apply wrap64_small. unfold in_int64. lia.
      * rewrite liveEvents_pauses by lia.
        rewrite Z.add_0_l. change (0 / 10) with 0. lia.
Qed.

Lemma debug_skips_counting_and_pacing_witness :
  let ten := repeat Sample.fresh1 10 in
  DebugMode Sample.debug = true /\
  DebugMode Sample.live = false /\
  NewBotAPI Sample.world (BotToken Sample.live) = Ok Sample.client /\
  fst (pushStage Sample.debug Sample.world ten initGlobals) = Val 0 /\
  fst (pushStage Sample.live Sample.world ten initGlobals) = Val 10.
Proof.
  intros ten.
  assert (Hd : DebugMode Sample.debug = true) by reflexivity.
  assert (Hl : DebugMode Sample.live = false) by reflexivity.
  assert (Hn : NewBotAPI Sample.world (BotToken Sample.live) = Ok Sample.client)
    by reflexivity.
  repeat (split; [assumption|]).
  destruct (debug_skips_counting_and_pacing
              Sample.debug Sample.live Sample.world ten Sample.client
              Hd Hl Hn) as [(gd & Hgd & _) (gl & Hgl & _)].
  rewrite Hgd, Hgl. split; reflexivity.
Defined.

(** C3: in debug mode the one-time initialisation leaves the client
    nil and the loop leaves the counter at zero; whenever the queue
    closes with the counter at zero, the heartbeat branch calls Send
    on the nil client and the delivery stage panics with a nil
    dereference. *)
Theorem debug_heartbeat_dereferences_nil_client (fl : Flags) (W : World) :
  DebugMode fl = true ->
  bot (snd (onceLoader_Do (initBot fl W) initGlobals)) = None /\
  (forall feeds, fst (pushStage fl W feeds initGlobals) = Val 0) /\
  (forall feeds cnt g1,
      pushStage fl W feeds initGlobals = (Val cnt, g1) ->
      cnt = 0 ->
      bot g1 = None /\
      exists g2,
        PushPost fl W feeds initGlobals = (Panic nilDeref, g2) /\
        trace g2 = trace g1 ++ [EvSend None (ChannelID fl) beatText; EvDone]).
Proof.
  intros Hd. split; [|split].
  - rewrite initBot_debug by (exact Hd || reflexivity). reflexivity.
  - intros feeds. rewrite pushStage_debug by (exact Hd || reflexivity).
    reflexivity.
  - intros feeds cnt g1 Hs ->.
    assert (Hb : bot g1 = None).
    { rewrite pushStage_debug in Hs by (exact Hd || reflexivity).
      injection Hs as <-. reflexivity. }
    split; [exact Hb|].
    rewrite PushPost_stages, Hs, pushBeat_spec. cbn [fst snd].
    rewrite Hb. eexists. split; [reflexivity|].
    unfold done, afterSends, beatEvents. cbn. rewrite <- app_assoc.
    reflexivity.
Qed.

Lemma debug_heartbeat_dereferences_nil_client_witness :
  DebugMode Sample.debug = true /\
  fst (PushPost Sample.debug Sample.world [Sample.fresh1; Sample.fresh2]
                initGlobals) = Panic nilDeref.
Proof.
  assert (Hd : DebugMode Sample.debug = true) by reflexivity.
  split; [exact Hd|].
  destruct (debug_heartbeat_dereferences_nil_client Sample.debug Sample.world Hd)
    as (_ & _ & Hrun).
  destruct (pushStage Sample.debug Sample.world [Sample.fresh1; Sample.fresh2]
                      initGlobals) as [r g1] eqn:Hs.
  assert (Hr : r = Val 0).
  { change r with (fst (r, g1)). rewrite <- Hs. vm_compute. reflexivity. }
  subst r.
  destruct (Hrun _ 0 g1 Hs eq_refl) as (_ & g2 & Hp & _).
  rewrite Hp. reflexivity.
Defined.

(** C4: when the queue is drained with the counter at [cnt], the code
    after the loop attempts exactly one heartbeat send if and only if
    [cnt] is 0 and none if [cnt] is 1 or more; when the heartbeat send
    returns an error, the error is logged and [PushPost] returns
    normally. *)
Theorem heartbeat_iff_counter_zero
        (fl : Flags) (W : World) (feeds : list gofeed.Item)
        (g : Globals) (cnt : Z) (g1 : Globals) :
  pushStage fl W feeds g = (Val cnt, g1) ->
  exists r g2 evs,
    PushPost fl W feeds g = (r, g2) /\
    trace g2 = trace g1 ++ evs ++ [EvDone] /\
    (countSends evs = 1%nat <-> cnt = 0) /\
    (1 <= cnt -> countSends evs = 0%nat) /\
    (cnt = 0 -> sendTexts evs = [beatText]) /\
    (forall b e,
        bot g1 = Some b ->
        cnt = 0 ->
        Send W (sends g1) b (ChannelID fl) beatText = Some e ->
        r = Val tt /\
        evs = [EvSend (Some b) (ChannelID fl) beatText;
               EvLog (Sprintf ("send beat err: %v" ++ nl)%string [e])]).
Proof.
  intros Hs. rewrite PushPost_stages, Hs, pushBeat_spec. cbn [fst snd].
  exists (beatResult (bot g1) cnt).
  eexists. exists (beatEvents W (bot g1) (ChannelID fl) (sends g1) cnt).
  split; [reflexivity|]. split.
  { unfold done, afterSends. cbn [trace]. now rewrite app_assoc. }
  rewrite beatEvents_sends.
  split; [|split; [|split]].
  - destruct (Z.eqb_spec cnt 0); split; intros; (lia || discriminate).
  - intros H1. destruct (Z.eqb_spec cnt 0); [lia|reflexivity].
  - intros ->. unfold beatEvents. cbn [Z.eqb].
    destruct (bot g1) as [b|]; [|reflexivity].
    destruct (Send W (sends g1) b (ChannelID fl) beatText); reflexivity.
  - intros b e Hb -> He. unfold beatResult, beatEvents. cbn [Z.eqb].
    rewrite Hb, He. split; reflexivity.
Qed.

Lemma heartbeat_iff_counter_zero_witness :
  pushStage Sample.live Sample.world [] initGlobals
  = (Val 0, mkGlobals (Some Sample.client) true false 0 0 []) /\
  fst (PushPost Sample.live Sample.world [] initGlobals) = Val tt /\
  trace (snd (PushPost Sample.live Sample.world [] initGlobals))
  = [EvSend (Some Sample.client) 42 beatText;
     EvLog (Sprintf ("send beat err: %v" ++ nl)%string ["flood"]);
     EvDone].
Proof.
  assert (Hs : pushStage Sample.live Sample.world [] initGlobals
               = (Val 0, mkGlobals (Some Sample.client) true false 0 0 []))
    by reflexivity.
  split; [exact Hs|].
  destruct (heartbeat_iff_counter_zero Sample.live Sample.world [] initGlobals
                                       0 _ Hs)
    as (r & g2 & evs & Hp & Htr & _ & _ & _ & Herr).
  destruct (Herr Sample.client "flood" eq_refl eq_refl eq_refl) as [Hr Hevs].
  rewrite Hp. cbn [fst snd]. split; [exact Hr|].
  rewrite Htr, Hevs. reflexivity.
Defined.

(** C6 (as stated) fails: in debug mode the loop processes an item,
    it receives it and logs its line, and leaves the counter as it
    was, where an increment would give 1; after a queue of two items
    the counter is still 0. *)
Lemma debug_processes_without_counting :
  pushItem Sample.debug Sample.world Sample.fresh1 0 initGlobals
  = (Val 0, addTrace initGlobals [infoEvent Sample.fresh1]) /\
  int_incr 0 = 1 /\
  fst (pushLoop Sample.debug Sample.world [Sample.fresh1; Sample.fresh2] 0
                initGlobals)
  = Val 0.
Proof.
  split; [apply pushItem_debug; reflexivity|].
  split; [reflexivity|].
  rewrite (pushLoop_debug Sample.debug Sample.world); reflexivity.
Qed.

(** C6 (as amended): in a live run, with the client constructed,
    every iteration of the loop makes one send and increments the
    counter once, whether the send succeeds or fails; a failed send is
    logged and not repeated, and the loop goes on: over the whole
    queue there is exactly one send per item, in queue order, and the
    counter ends at the number of items. *)
Theorem counter_counts_every_item (fl : Flags) (W : World) (b : tgbotapi.BotAPI) :
  DebugMode fl = false ->
  (forall feed cnt g,
      bot g = Some b ->
      exists g',
        pushItem fl W feed cnt g = (Val (int_incr cnt), g') /\
        bot g' = Some b /\
        trace g' = trace g ++ itemEvents W b (ChannelID fl) (sends g) cnt feed /\
        sendTexts (itemEvents W b (ChannelID fl) (sends g) cnt feed)
        = [makeDisplayMsg feed] /\
        (forall e,
            Send W (sends g) b (ChannelID fl) (makeDisplayMsg feed) = Some e ->
            In (EvLog (Sprintf ("send tg err: %v" ++ nl)%string [e]))
               (itemEvents W b (ChannelID fl) (sends g) cnt feed))) /\
  (forall feeds g,
      bot g = Some b ->
      exists g',
        pushLoop fl W feeds 0 g
        = (Val (wrap64 (Z.of_nat (List.length feeds))), g') /\
        trace g' = trace g ++ liveEvents W b (ChannelID fl) (sends g) 0 feeds /\
        sendTexts (liveEvents W b (ChannelID fl) (sends g) 0 feeds)
        = map makeDisplayMsg feeds /\
        countSends (liveEvents W b (ChannelID fl) (sends g) 0 feeds)
        = List.length feeds /\
        (Z.of_nat (List.length feeds) < 2 ^ 63 ->
         wrap64 (Z.of_nat (List.length feeds)) = Z.of_nat (List.length feeds))).
Proof.
  intros Hd. split.
  - intros feed cnt g Hb. eexists.
    split; [apply (pushItem_live fl W feed cnt g b Hd Hb)|].
    split; [exact Hb|]. split; [reflexivity|].
    split; [apply itemEvents_sends|].
    intros e He. unfold itemEvents. rewrite He.
    apply in_or_app. right. apply in_or_app. left. left. reflexivity.
  - intros feeds g Hb. eexists.
    split; [apply (pushLoop_live fl W b feeds Hd 0 g Hb); unfold in_int64; lia|].
    split; [reflexivity|].
    split; [apply liveEvents_sends|]. split; [apply liveEvents_sends|].
    intros Hlt. apply wrap64_small. unfold in_int64. lia.
Qed.

Lemma counter_counts_every_item_witness :
  DebugMode Sample.live = false /\
  fst (pushLoop Sample.live Sample.world [Sample.fresh1; Sample.fresh2] 0
                Sample.ready) = Val 2 /\
  sendTexts (trace (snd (pushLoop Sample.live Sample.world
                                  [Sample.fresh1; Sample.fresh2] 0 Sample.ready)))
  = [makeDisplayMsg Sample.fresh1; makeDisplayMsg Sample.fresh2].
Proof.
  assert (Hd : DebugMode Sample.live = false) by reflexivity.
  split; [exact Hd|].
  destruct (counter_counts_every_item Sample.live Sample.world Sample.client Hd)
    as [_ Hloop].
  destruct (Hloop [Sample.fresh1; Sample.fresh2] Sample.ready eq_refl)
    as (g' & Hrun & Htr & Htx & _).
  rewrite Hrun. cbn [fst snd]. split; [reflexivity|].
  rewrite Htr. cbn [trace Sample.ready app]. exact Htx.
Defined.

(** ** The pipeline *)

(** C9: when the parser fails for subscription A, the fetch logs the
    error with the URL and returns no items; and in a live run with at
    least one worker on the subscriptions A (whose fetch fails) and B
    (whose fetch gives the two entries x and y), under every schedule
    of the goroutines: no goroutine panics, a run that is not over can
    take a step, no run is longer than 19 steps plus the number of
    workers, and when the run is over the counter of the delivery
    stage is 2 and exactly 2 sends were made, those of x and y. *)
Theorem failed_feed_is_isolated
        (fl : Flags) (W : World) (A B : RssInfo) (e : string)
        (b : tgbotapi.BotAPI) (x y : gofeed.Item) :
  DebugMode fl = false ->
  1 <= GoroutineNum fl < 2 ^ 31 ->
  NewBotAPI W (BotToken fl) = Ok b ->
  (forall k, ParseURL W k (Url A) = Err e) ->
  (forall g, fst (GetPostInfo fl W B g) = Val [x; y]) ->
  (forall g,
      GetPostInfo fl W A g
      = (Val [],
         afterFetch g [EvLog ("parse url err: url=" ++ Url A ++ ", " ++ e)%string])) /\
  (forall sched s,
      run fl W sched (initSys fl [A; B]) = Some s ->
      crashed s = None /\
      (List.length sched <= 19 + Z.to_nat (GoroutineNum fl))%nat /\
      (finished s = false -> exists a s', step fl W a s = Some s') /\
      (finished s = true ->
       pusher s = PushExit 2 /\
       countSends (trace (globals s)) = 2%nat /\
       Permutation (sendTexts (trace (globals s)))
                   [makeDisplayMsg x; makeDisplayMsg y])).
Proof.
  intros Hlive Hworkers Hbot HA HB.
  split.
  - intros g. rewrite GetPostInfo_spec. unfold fetchItems, fetchLog.
    rewrite HA, parse_error_line. reflexivity.
  - set (items := fun info : RssInfo =>
                    if String.eqb (Url info) (Url A) then [] else [x; y]).
    assert (HyA : forall k, fetchItems fl W k A = []).
    { intros k. unfold fetchItems. now rewrite HA. }
    assert (HyB : forall k, fetchItems fl W k B = [x; y]).
    { intros k.
      specialize (HB (mkGlobals None false false k 0 [])).
      rewrite GetPostInfo_spec in HB. cbn [fst fetches] in HB.
      injection HB as ->. reflexivity. }
    assert (Hne : String.eqb (Url B) (Url A) = false).
    { destruct (String.eqb_spec (Url B) (Url A)) as [Heq|]; [|reflexivity].
      specialize (HyB 0%nat). unfold fetchItems in HyB.
      rewrite Heq, HA in HyB. discriminate HyB. }
    assert (Hitems : forall info k,
               In info [A; B] -> fetchItems fl W k info = items info).
    { intros info k [<-|[<-|[]]]; unfold items.
      - rewrite HyA, String.eqb_refl. reflexivity.
      - rewrite HyB, Hne. reflexivity. }
    assert (Hall : flat_map items [A; B] = [x; y]).
    { unfold items. cbn [flat_map]. rewrite String.eqb_refl, Hne. reflexivity. }
    intros sched s Hrun.
    destruct (Inv_run fl W [A; B] b items Hlive Hworkers Hbot Hitems
                      sched _ s
                      (Inv_init fl [A; B] b items Hworkers) Hrun)
      as [HI Hlen].
    split; [apply (inv_alive _ _ _ _ _ HI)|]. split; [|split].
    + assert (Hm0 : measure (fun info => List.length (items info))
                            (initSys fl [A; B])
                    = (19 + Z.to_nat (GoroutineNum fl))%nat).
      { rewrite initSys_started by lia.
        unfold measure, descWeight, items.
        cbn [producer infoChan tgChan consumers pusher mainG buf sumBy
             List.length].
        rewrite String.eqb_refl, Hne.
        destruct (repeat_ConRecv_sums (Z.to_nat (GoroutineNum fl)))
          as (_ & _ & ->). cbn [List.length]. lia. }
      lia.
    + apply (Inv_progress fl W [A; B] b items Hlive Hbot s HI).
    + intros Hfin.
      assert (Hexit : mainG s = MainExit).
      { unfold finished in Hfin. rewrite (inv_alive _ _ _ _ _ HI) in Hfin.
        destruct (mainG s); (reflexivity || discriminate Hfin). }
      destruct (Inv_final fl [A; B] b items Hworkers s HI Hexit)
        as (sent & Hperm & Hp & Htexts).
      rewrite Hall in Hperm.
      assert (Hlen2 : List.length sent = 2%nat)
        by (apply Permutation_length in Hperm; exact Hperm).
      rewrite Hlen2 in Hp. change (wrap64 (Z.of_nat 2)) with 2 in Hp.
      rewrite Hp in Htexts. cbn [beatTexts Z.eqb] in Htexts.
      rewrite app_nil_r in Htexts.
      split; [exact Hp|]. split.
      * rewrite <- sendTexts_length, Htexts, length_map. exact Hlen2.
      * rewrite Htexts.
        change [makeDisplayMsg x; makeDisplayMsg y]
          with (map makeDisplayMsg [x; y]).
        apply Permutation_map. exact Hperm.
Qed.

Lemma failed_feed_is_isolated_witness :
  let fl := Sample.live in
  let sched := schedule fl Sample.world 100 (initSys fl [Sample.subA; Sample.subB]) in
  DebugMode fl = false /\
  1 <= GoroutineNum fl < 2 ^ 31 /\
  NewBotAPI Sample.world (BotToken fl) = Ok Sample.client /\
  (forall k, ParseURL Sample.world k (Url Sample.subA) = Err "timeout") /\
  (forall g, fst (GetPostInfo fl Sample.world Sample.subB g)
             = Val [Sample.fresh1; Sample.fresh2]) /\
  exists s,
    run fl Sample.world sched (initSys fl [Sample.subA; Sample.subB]) = Some s /\
    finished s = true /\
    pusher s = PushExit 2 /\
    countSends (trace (globals s)) = 2%nat.
Proof.
  intros fl sched.
  assert (Hlive : DebugMode fl = false) by reflexivity.
  assert (Hworkers : 1 <= GoroutineNum fl < 2 ^ 31) by (cbn; lia).
  assert (Hbot : NewBotAPI Sample.world (BotToken fl) = Ok Sample.client)
    by reflexivity.
  assert (HA : forall k, ParseURL Sample.world k (Url Sample.subA) = Err "timeout")
    by (intros k; reflexivity).
  assert (HB : forall g, fst (GetPostInfo fl Sample.world Sample.subB g)
                         = Val [Sample.fresh1; Sample.fresh2]).
  { intros g. rewrite GetPostInfo_spec. cbn [fst]. vm_compute. reflexivity. }
  repeat (split; [assumption|]).
  destruct (run fl Sample.world sched (initSys fl [Sample.subA; Sample.subB]))
    as [s|] eqn:Hrun; [|vm_compute in Hrun; discriminate Hrun].
  exists s. split; [reflexivity|].
  assert (Hfin : finished s = true).
  { assert (Hf : option_map finished
                   (run fl Sample.world sched
                        (initSys fl [Sample.subA; Sample.subB])) = Some true)
      by (vm_compute; reflexivity).
    rewrite Hrun in Hf. injection Hf as Hf. exact Hf. }
  split; [exact Hfin|].
  destruct (failed_feed_is_isolated fl Sample.world Sample.subA Sample.subB
                                    "timeout" Sample.client
                                    Sample.fresh1 Sample.fresh2
                                    Hlive Hworkers Hbot HA HB) as [_ Hruns].
  destruct (Hruns sched s Hrun) as (_ & _ & _ & Hdone).
  destruct (Hdone Hfin) as (Hp & Hc & _). split; assumption.
Defined.

(* ================================================================= *)
(** * Further properties of [main.go] *)

(** ** [getDatetime] *)

Lemma firstValid_none times :
  (forall d, In d times -> usable d = false) -> firstValid times = None.
Proof.
  induction times as [|d rest IH]; intros H; [reflexivity|].
  cbn [firstValid].
  assert (Hd : usable d = false) by (apply H; left; reflexivity).
  assert (Hr : firstValid rest = None)
    by (apply IH; intros x Hx; apply H; right; exact Hx).
  destruct d as [t|]; [|exact Hr].
  cbn [usable] in Hd. rewrite Hd. exact Hr.
Qed.

Lemma firstValid_first pre t post :
  IsZero t = false ->
  (forall d, In d pre -> usable d = false) ->
  firstValid (pre ++ Some t :: post) = Some t.
Proof.
  intros Ht. induction pre as [|d pre IH]; intros H.
  - cbn [app firstValid]. now rewrite Ht.
  - cbn [app firstValid].
    assert (Hd : usable d = false) by (apply H; left; reflexivity).
    assert (Hr : firstValid (pre ++ Some t :: post) = Some t)
      by (apply IH; intros x Hx; apply H; right; exact Hx).
    destruct d as [u|]; [|exact Hr].
    cbn [usable] in Hd. rewrite Hd. exact Hr.
Qed.

Lemma firstValid_member times t :
  firstValid times = Some t -> In (Some t) times /\ IsZero t = false.
Proof.
  induction times as [|d rest IH]; intros H; [discriminate H|].
  cbn [firstValid] in H. destruct d as [u|].
  - destruct (IsZero u) eqn:Hu; cbn [negb] in H.
    + destruct (IH H) as [Hin Hz]. split; [right; exact Hin|exact Hz].
    + injection H as ->. split; [left; reflexivity|exact Hu].
  - destruct (IH H) as [Hin Hz]. split; [right; exact Hin|exact Hz].
Qed.

Lemma last_member {A} (a : A) (l : list A) (d : A) : In (last (a :: l) d) (a :: l).
Proof.
  revert a. induction l as [|b l IH]; intros a; [left; reflexivity|].
  change (last (a :: b :: l) d) with (last (b :: l) d).
  right. apply IH.
Qed.

(** X1: [getDatetime] panics exactly on an empty argument list. On a
    non-empty list it returns the first timestamp that is neither nil
    nor zero-valued; if there is none it returns the last argument,
    whatever it is. What it returns is always one of its arguments. *)
Theorem getDatetime_first_usable_else_last :
  (forall times, (exists msg, getDatetime times = Panic msg) <-> times = []) /\
  (forall pre t post,
      IsZero t = false ->
      (forall d, In d pre -> usable d = false) ->
      getDatetime (pre ++ Some t :: post) = Val (Some t)) /\
  (forall d0 times,
      (forall d, In d (d0 :: times) -> usable d = false) ->
      getDatetime (d0 :: times) = Val (last (d0 :: times) None)) /\
  (forall times d, getDatetime times = Val d -> In d times).
Proof.
  split; [|split; [|split]].
  - intros times. split.
    + intros [msg H]. unfold getDatetime in H.
      destruct (firstValid times); [discriminate H|].
      destruct times; [reflexivity|discriminate H].
    + intros ->. eexists. reflexivity.
  - intros pre t post Ht Hpre. unfold getDatetime.
    now rewrite (firstValid_first pre t post Ht Hpre).
  - intros d0 times H. unfold getDatetime.
    now rewrite (firstValid_none _ H).
  - intros times d H. unfold getDatetime in H.
    destruct (firstValid times) as [t|] eqn:Hf.
    + injection H as <-. apply (firstValid_member _ _ Hf).
    + destruct times as [|d0 rest]; [discriminate H|].
      injection H as <-. apply last_member.
Qed.

Lemma getDatetime_first_usable_else_last_witness :
  getDatetime [None; Some (mkTime 0 0); Some (mkTime 5 0); Some (mkTime 9 0)]
  = Val (Some (mkTime 5 0)) /\
  getDatetime [Some (mkTime 0 0); None; Some (mkTime 0 0)]
  = Val (Some (mkTime 0 0)) /\
  getDatetime [Some (mkTime 0 0); None] = Val None.
Proof.
  destruct getDatetime_first_usable_else_last as (_ & Hfirst & Hlast & _).
  split; [|split].
  - apply (Hfirst [None; Some (mkTime 0 0)] (mkTime 5 0) [Some (mkTime 9 0)]).
    + reflexivity.
    + intros d [<-|[<-|[]]]; reflexivity.
  - apply (Hlast (Some (mkTime 0 0)) [None; Some (mkTime 0 0)]).
    intros d [<-|[<-|[<-|[]]]]; reflexivity.
  - apply (Hlast (Some (mkTime 0 0)) [None]).
    intros d [<-|[<-|[]]]; reflexivity.
Defined.

(** ** [GetPostInfo] *)

Lemma fetchLog_logs fl W k rss : forallb isLog (fetchLog fl W k rss) = true.
Proof.
  unfold fetchLog, debugLines.
  destruct (ParseURL W k (Url rss)) as [feed|err]; [|reflexivity].
  destruct (DebugMode fl); [|reflexivity].
  induction (gofeed.Items feed) as [|item rest IH]; [reflexivity|exact IH].
Qed.

(** X2: [GetPostInfo] never panics, whatever the flags, the clock and
    the parser's answer. It advances the fetch count by one, writes
    log lines only (no send, no sleep, no cancellation) and leaves the
    client, the once flag and the send count untouched. *)
Theorem GetPostInfo_returns_and_only_logs
        (fl : Flags) (W : World) (rss : RssInfo) (g : Globals) :
  exists res g' logs,
    GetPostInfo fl W rss g = (Val res, g') /\
    trace g' = trace g ++ logs /\
    forallb isLog logs = true /\
    fetches g' = S (fetches g) /\
    bot g' = bot g /\ onceDone g' = onceDone g /\
    ctxDone g' = ctxDone g /\ sends g' = sends g.
Proof.
  rewrite GetPostInfo_spec.
  exists (fetchItems fl W (fetches g) rss).
  exists (afterFetch g (fetchLog fl W (fetches g) rss)).
  exists (fetchLog fl W (fetches g) rss).
  split; [reflexivity|]. split; [reflexivity|].
  split; [apply fetchLog_logs|]. repeat split.
Qed.

Lemma debugLine_text item : debugLine item = debugText item.
Proof.
  unfold debugLine, debugText. cbn. reflexivity.
Qed.

(** X3: when the parser succeeds, [GetPostInfo] in debug mode logs one
    line for every entry of the feed, kept or not, in feed order, each
    of the form "debug: Title=.., Url=.., Published=.., Updated=.."
    with a newline; outside debug mode it logs nothing. *)
Theorem GetPostInfo_debug_lines
        (fl : Flags) (W : World) (rss : RssInfo) (g : Globals)
        (feed : gofeed.Feed) :
  ParseURL W (fetches g) (Url rss) = Ok feed ->
  trace (snd (GetPostInfo fl W rss g))
  = trace g ++ (if DebugMode fl
                then map (fun item => EvLog (debugText item)) (gofeed.Items feed)
                else []).
Proof.
  intros Hp. rewrite GetPostInfo_spec. cbn [snd afterFetch trace].
  unfold fetchLog, debugLines. rewrite Hp.
  apply (f_equal (app (trace g))).
  destruct (DebugMode fl); [|reflexivity].
  apply map_ext. intros item. now rewrite debugLine_text.
Qed.

Lemma GetPostInfo_debug_lines_witness :
  ParseURL Sample.world 0 (Url Sample.subB) = Ok Sample.feed /\
  List.length (trace (snd (GetPostInfo Sample.debug Sample.world Sample.subB
                                       initGlobals))) = 5%nat /\
  trace (snd (GetPostInfo Sample.live Sample.world Sample.subB initGlobals)) = [].
Proof.
  assert (Hp : ParseURL Sample.world (fetches initGlobals) (Url Sample.subB)
               = Ok Sample.feed) by reflexivity.
  split; [exact Hp|]. split.
  - rewrite (GetPostInfo_debug_lines Sample.debug Sample.world Sample.subB
                                     initGlobals Sample.feed Hp).
    reflexivity.
  - rewrite (GetPostInfo_debug_lines Sample.live Sample.world Sample.subB
                                     initGlobals Sample.feed Hp).
    reflexivity.
Defined.

Lemma filter_Subseq {A} (f : A -> bool) (l : list A) : Subseq (filter f l) l.
Proof.
  induction l as [|a l IH]; [constructor|].
  cbn [filter]. destruct (f a); constructor; exact IH.
Qed.

Lemma Subseq_length {A} (l1 l2 : list A) :
  Subseq l1 l2 -> (List.length l1 <= List.length l2)%nat.
Proof. induction 1; cbn [List.length]; lia. Qed.

(** X4: for every clock and every look-back, what [GetPostInfo]
    returns on a parsed feed is a subsequence of the feed's entries
    (none repeated, none reordered, so no more than the feed has), and
    every entry returned has a non-nil effective timestamp inside the
    window of that fetch. *)
Theorem GetPostInfo_subsequence_in_window
        (fl : Flags) (W : World) (rss : RssInfo) (g : Globals)
        (feed : gofeed.Feed) :
  ParseURL W (fetches g) (Url rss) = Ok feed ->
  let now := timeOfUnixNano (ClockNanos W (fetches g)) in
  exists res,
    fst (GetPostInfo fl W rss g) = Val res /\
    Subseq res (gofeed.Items feed) /\
    (List.length res <= List.length (gofeed.Items feed))%nat /\
    forall item,
      In item res ->
      exists t, effectiveTimestamp item = Some t /\
                windowStart now (StartBy fl) <= Unix t < windowEnd now.
Proof.
  intros Hp now. rewrite GetPostInfo_spec. cbn [fst].
  unfold fetchItems, fetchWindow. rewrite Hp. cbn [fst snd]. fold now.
  eexists. split; [reflexivity|].
  split; [apply filter_Subseq|].
  split; [apply Subseq_length, filter_Subseq|].
  intros item Hin. apply filter_In in Hin as [_ Hk].
  rewrite keepItem_effective in Hk. unfold inWindow in Hk.
  destruct (effectiveTimestamp item) as [t|]; [|discriminate Hk].
  exists t. apply andb_true_iff in Hk as [H1 H2].
  apply Z.leb_le in H1. apply Z.ltb_lt in H2. auto.
Qed.

Lemma GetPostInfo_subsequence_in_window_witness :
  ParseURL Sample.world 0 (Url Sample.subB) = Ok Sample.feed /\
  exists res,
    fst (GetPostInfo Sample.live Sample.world Sample.subB initGlobals) = Val res /\
    Subseq res (gofeed.Items Sample.feed).
Proof.
  assert (Hp : ParseURL Sample.world (fetches initGlobals) (Url Sample.subB)
               = Ok Sample.feed) by reflexivity.
  split; [exact Hp|].
  destruct (GetPostInfo_subsequence_in_window
              Sample.live Sample.world Sample.subB initGlobals Sample.feed Hp)
    as (res & Hres & Hsub & _).
  exists res. split; assumption.
Defined.

(** ** The window *)

Lemma unixToInternal_hours : unixToInternal = 3600 * 17259888.
Proof. reflexivity. Qed.

(** X5: for every clock reading and every look-back of 0 to 2562047
    hours, both ends of the window are whole hours (Unix seconds
    divisible by 3600), the window is exactly the look-back long, and
    it ends at the start of the current hour: the current, unfinished
    hour is never inside it. In particular start < end for a positive
    look-back. *)
Theorem window_is_hour_aligned (ns h : Z) :
  0 <= h <= maxHours ->
  let now := timeOfUnixNano ns in
  windowStart now h mod 3600 = 0 /\
  windowEnd now mod 3600 = 0 /\
  windowEnd now - windowStart now h = 3600 * h /\
  windowEnd now <= Unix now < windowEnd now + 3600 /\
  (0 < h -> windowStart now h < windowEnd now).
Proof.
  intros H now. subst now.
  rewrite windowStart_exact by (unfold maxHours in *; lia).
  rewrite windowEnd_exact.
  unfold Unix, truncateToHour, minusHours, timeOfUnixNano.
  cbn [tsec tnsec]. rewrite unixToInternal_hours.
  set (q := ns / 1000000000).
  split; [|split; [|split; [|split]]]; try (intros Hpos);
    Z.div_mod_to_equations; lia.
Qed.

Lemma window_is_hour_aligned_witness :
  0 <= 3 <= maxHours /\
  windowEnd (timeOfUnixNano Sample.clock)
  - windowStart (timeOfUnixNano Sample.clock) 3 = 10800.
Proof.
  assert (H : 0 <= 3 <= maxHours) by (unfold maxHours; lia).
  split; [exact H|].
  destruct (window_is_hour_aligned Sample.clock 3 H) as (_ & _ & Hspan & _).
  exact Hspan.
Defined.

(** X6: runs that are a look-back apart look at adjacent windows: the
    window of the run that starts h hours later begins exactly where
    this run's window ends, so no instant is examined twice and none
    is skipped. *)
Theorem windows_of_periodic_runs_tile (ns h : Z) :
  0 <= h <= maxHours ->
  windowStart (timeOfUnixNano (ns + h * 3600 * 1000000000)) h
  = windowEnd (timeOfUnixNano ns).
Proof.
  intros H.
  rewrite windowStart_exact by (unfold maxHours in *; lia).
  rewrite windowEnd_exact.
  unfold Unix, truncateToHour, minusHours, timeOfUnixNano. cbn [tsec tnsec].
  rewrite Z.div_add by lia.
  replace (unixToInternal + (ns / 1000000000 + h * 3600) - 3600 * h)
    with (unixToInternal + ns / 1000000000) by lia.
  reflexivity.
Qed.

Lemma windows_of_periodic_runs_tile_witness :
  0 <= 3 <= maxHours /\
  windowStart (timeOfUnixNano (Sample.clock + 3 * 3600 * 1000000000)) 3
  = 1704067200.
Proof.
  assert (H : 0 <= 3 <= maxHours) by (unfold maxHours; lia).
  split; [exact H|].
  rewrite (windows_of_periodic_runs_tile Sample.clock 3 H).
  vm_compute. reflexivity.
Defined.

(** ** Messages *)

Lemma occurs_app c a b : occurs c (a ++ b)%string = occurs c a || occurs c b.
Proof.
  induction a as [|x a IH]; [reflexivity|].
  cbn [append occurs]. rewrite IH. now rewrite orb_assoc.
Qed.

Lemma append_associative (a b c : string) :
  ((a ++ b) ++ c)%string = (a ++ (b ++ c))%string.
Proof.
  induction a as [|x a IH]; [reflexivity|]. cbn [append]. now rewrite IH.
Qed.

(** The message of an item is its title and its link on two lines,
    preceded by a line with the author's name when the item has an
    author (an author with an empty name gives an empty first line). *)
Lemma makeDisplayMsg_layout (item : gofeed.Item) :
  makeDisplayMsg item
  = match gofeed.Author item with
    | Some a => (gofeed.Name a ++ nl ++ gofeed.Title item ++ nl
                 ++ gofeed.Link item)%string
    | None => (gofeed.Title item ++ nl ++ gofeed.Link item)%string
    end.
Proof.
  unfold makeDisplayMsg, safeExtractName.
  destruct (gofeed.Author item) as [a|]; cbn.
  - rewrite !append_empty_r, append_associative. reflexivity.
  - rewrite append_empty_r. reflexivity.
Qed.

(** X7: no item's message is the heartbeat text: every item message
    contains a newline and the heartbeat contains none, so a reader of
    the channel can always tell the two apart. *)
Theorem makeDisplayMsg_is_not_heartbeat (item : gofeed.Item) :
  occurs (ascii_of_nat 10) (makeDisplayMsg item) = true /\
  occurs (ascii_of_nat 10) beatText = false /\
  makeDisplayMsg item <> beatText.
Proof.
  assert (Hb : occurs (ascii_of_nat 10) beatText = false)
    by (vm_compute; reflexivity).
  assert (Hm : occurs (ascii_of_nat 10) (makeDisplayMsg item) = true).
  { unfold makeDisplayMsg, safeExtractName.
    destruct (gofeed.Author item) as [a|]; cbn;
      rewrite ?append_empty_r, !occurs_app; cbn [occurs];
      rewrite Ascii.eqb_refl; now rewrite ?orb_true_r. }
  split; [exact Hm|]. split; [exact Hb|].
  intros Heq. rewrite Heq, Hb in Hm. discriminate Hm.
Qed.

(** ** [PushPost] *)

Lemma noDone_app a b : noDone (a ++ b) = noDone a && noDone b.
Proof. apply forallb_app. Qed.

Lemma quiet_ret {A} (a : A) : quiet (ret a).
Proof.
  intros g. exists []. unfold ret. cbn [snd]. rewrite app_nil_r.
  repeat split.
Qed.

Lemma quiet_panic {A} msg : quiet (@panic A msg).
Proof.
  intros g. exists []. unfold panic. cbn [snd]. rewrite app_nil_r.
  repeat split.
Qed.

Lemma quiet_emit e : isDone e = false -> quiet (emit e).
Proof.
  intros He g. exists [e]. unfold emit. cbn [snd trace ctxDone fetches].
  split; [reflexivity|]. split; [|split; reflexivity].
  unfold noDone. cbn [forallb]. now rewrite He.
Qed.

Lemma quiet_bind {A B} (m : M A) (k : A -> M B) :
  quiet m -> (forall a, quiet (k a)) -> quiet (bind m k).
Proof.
  intros Hm Hk g. unfold bind.
  destruct (Hm g) as (e1 & T1 & N1 & C1 & F1).
  destruct (m g) as [[a|msg] g1]; cbn [snd] in *.
  - destruct (Hk a g1) as (e2 & T2 & N2 & C2 & F2).
    exists (e1 ++ e2). rewrite T2, T1, app_assoc, noDone_app, N1, N2.
    repeat split; congruence.
  - exists e1. repeat split; assumption.
Qed.

Lemma quiet_botSend W chat text : quiet (botSend W chat text).
Proof.
  intros g. exists [EvSend (bot g) chat text]. unfold botSend.
  destruct (bot g); cbn [snd trace ctxDone fetches]; repeat split.
Qed.

Lemma quiet_initBot fl W : quiet (onceLoader_Do (initBot fl W)).
Proof.
  intros g. exists []. unfold onceLoader_Do, initBot. rewrite app_nil_r.
  destruct (onceDone g); [repeat split|].
  destruct (DebugMode fl); cbn [negb]; [repeat split|].
  destruct (NewBotAPI W (BotToken fl)); repeat split.
Qed.

Lemma quiet_pushItem fl W feed cnt : quiet (pushItem fl W feed cnt).
Proof.
  unfold pushItem. apply quiet_bind; [apply quiet_emit; reflexivity|].
  intros _. destruct (DebugMode fl); [apply quiet_ret|].
  apply quiet_bind; [apply quiet_botSend|]. intros err.
  apply quiet_bind.
  - destruct err; [apply quiet_emit; reflexivity|apply quiet_ret].
  - intros _. apply quiet_bind; [|intros _; apply quiet_ret].
    destruct (_ =? 0); [apply quiet_emit; reflexivity|apply quiet_ret].
Qed.

Lemma quiet_pushLoop fl W feeds : forall cnt, quiet (pushLoop fl W feeds cnt).
Proof.
  induction feeds as [|feed rest IH]; intros cnt; cbn [pushLoop].
  - apply quiet_ret.
  - apply quiet_bind; [apply quiet_pushItem|exact IH].
Qed.

Lemma quiet_pushBeat fl W cnt : quiet (pushBeat fl W cnt).
Proof.
  unfold pushBeat. destruct (cnt =? 0); [|apply quiet_ret].
  apply quiet_bind; [apply quiet_botSend|].
  intros err. destruct err; [apply quiet_emit; reflexivity|apply quiet_ret].
Qed.

(** X8: [PushPost] cancels the context exactly once and as the last
    thing it does, on every input: in either mode, whatever the sends
    return, and also when it panics. *)
Theorem PushPost_cancels_once_at_the_end
        (fl : Flags) (W : World) (feeds : list gofeed.Item) (g : Globals) :
  exists evs,
    trace (snd (PushPost fl W feeds g)) = trace g ++ evs ++ [EvDone] /\
    noDone evs = true /\
    ctxDone (snd (PushPost fl W feeds g)) = true.
Proof.
  unfold PushPost, defer.
  set (body := onceLoader_Do (initBot fl W) ;;;
               cnt <- pushLoop fl W feeds 0 ;; pushBeat fl W cnt).
  assert (Hq : quiet body).
  { apply quiet_bind; [apply quiet_initBot|]. intros _.
    apply quiet_bind; [apply quiet_pushLoop|]. intros cnt.
    apply quiet_pushBeat. }
  destruct (Hq g) as (evs & T & N & _ & _).
  destruct (body g) as [r g1]. cbn [snd] in *.
  exists evs. unfold done. cbn [trace ctxDone].
  rewrite T, app_assoc. repeat split. exact N.
Qed.

(** X9: when the client cannot be constructed, a live [PushPost]
    panics with the constructor's error before it reads the queue:
    nothing is logged or sent, the client stays nil, and the context
    is still cancelled. *)
Theorem PushPost_panics_without_client
        (fl : Flags) (W : World) (feeds : list gofeed.Item) (g : Globals)
        (err : string) :
  DebugMode fl = false ->
  onceDone g = false ->
  NewBotAPI W (BotToken fl) = Err err ->
  PushPost fl W feeds g
  = (Panic err,
     mkGlobals None true true (fetches g) (sends g) (trace g ++ [EvDone])).
Proof.
  intros Hd Ho Hn. unfold PushPost, defer, bind, onceLoader_Do, initBot.
  rewrite Ho, Hd, Hn. reflexivity.
Qed.

Lemma PushPost_panics_without_client_witness :
  let W := mkWorld (ParseURL Sample.world) (ClockNanos Sample.world)
                   (fun _ => Err "Unauthorized") (Send Sample.world) in
  DebugMode Sample.live = false /\
  onceDone initGlobals = false /\
  NewBotAPI W (BotToken Sample.live) = Err "Unauthorized" /\
  PushPost Sample.live W [Sample.fresh1] initGlobals
  = (Panic "Unauthorized", mkGlobals None true true 0 0 [EvDone]).
Proof.
  intros W. repeat (split; [reflexivity|]).
  apply (PushPost_panics_without_client Sample.live W [Sample.fresh1]
                                        initGlobals "Unauthorized");
    reflexivity.
Defined.

Lemma liveEvents_targets W b chat feeds :
  forall k cnt, Forall (targets b chat) (liveEvents W b chat k cnt feeds).
Proof.
  induction feeds as [|feed rest IH]; intros k cnt; [constructor|].
  cbn [liveEvents]. apply Forall_app. split; [|apply IH].
  unfold itemEvents, infoEvent.
  destruct (Send W k b chat (makeDisplayMsg feed));
    destruct (Z.rem (int_incr cnt) 10 =? 0);
    repeat constructor.
Qed.

Lemma beatEvents_targets W b chat k cnt :
  Forall (targets b chat) (beatEvents W (Some b) chat k cnt).
Proof.
  unfold beatEvents. destruct (cnt =? 0); [|constructor].
  destruct (Send W k b chat beatText); repeat constructor.
Qed.

(** X10: once the client is constructed, a live [PushPost] returns
    normally on every queue, whatever the sends return; every send it
    makes goes through that client to the configured channel, and it
    makes one per item, plus the heartbeat when the counter is 0. *)
Theorem PushPost_live_returns
        (fl : Flags) (W : World) (feeds : list gofeed.Item) (g : Globals)
        (b : tgbotapi.BotAPI) :
  DebugMode fl = false ->
  onceDone g = false ->
  NewBotAPI W (BotToken fl) = Ok b ->
  exists g' evs,
    PushPost fl W feeds g = (Val tt, g') /\
    bot g' = Some b /\
    trace g' = trace g ++ evs /\
    Forall (targets b (ChannelID fl)) evs /\
    countSends evs
    = (List.length feeds
       + if (wrap64 (Z.of_nat (List.length feeds)) =? 0)%Z then 1 else 0)%nat.
Proof.
  intros Hd Ho Hn.
  rewrite PushPost_stages, (pushStage_live fl W feeds g b Hd Ho Hn).
  rewrite pushBeat_spec. cbn [fst snd bot afterSends onceSet sends].
  set (cnt := wrap64 (Z.of_nat (List.length feeds))).
  set (live := liveEvents W b (ChannelID fl) (sends g) 0 feeds).
  set (beat := beatEvents W (Some b) (ChannelID fl)
                          (List.length feeds + sends g) cnt).
  assert (Hr : beatResult (Some b) cnt = Val tt)
    by (unfold beatResult; destruct (cnt =? 0); reflexivity).
  rewrite Hr.
  eexists. exists (live ++ beat ++ [EvDone]).
  split; [|split; [|split; [|split]]].
  - reflexivity.
  - reflexivity.
  - unfold done. cbn [snd trace afterSends onceSet].
    rewrite <- !app_assoc. reflexivity.
  - apply Forall_app. split; [apply liveEvents_targets|].
    apply Forall_app. split; [apply beatEvents_targets|].
    repeat constructor.
  - rewrite !countSends_app. subst live beat.
    destruct (liveEvents_sends W b (ChannelID fl) feeds (sends g) 0) as [_ ->].
    rewrite beatEvents_sends. cbn [countSends filter isSend List.length].
    destruct (cnt =? 0); lia.
Qed.

Lemma PushPost_live_returns_witness :
  DebugMode Sample.live = false /\
  onceDone initGlobals = false /\
  NewBotAPI Sample.world (BotToken Sample.live) = Ok Sample.client /\
  fst (PushPost Sample.live Sample.world [Sample.fresh1; Sample.fresh2]
                initGlobals) = Val tt.
Proof.
  assert (Hd : DebugMode Sample.live = false) by reflexivity.
  assert (Ho : onceDone initGlobals = false) by reflexivity.
  assert (Hn : NewBotAPI Sample.world (BotToken Sample.live) = Ok Sample.client)
    by reflexivity.
  repeat (split; [assumption|]).
  destruct (PushPost_live_returns Sample.live Sample.world
                                  [Sample.fresh1; Sample.fresh2] initGlobals
                                  Sample.client Hd Ho Hn)
    as (g' & evs & Hp & _).
  rewrite Hp. reflexivity.
Defined.

(** ** The goroutines *)

Lemma sumBy_ext {A} (f h : A -> nat) (l : list A) :
  (forall a, f a = h a) -> sumBy f l = sumBy h l.
Proof.
  intros H. induction l as [|a l IH]; [reflexivity|].
  cbn [sumBy]. now rewrite H, IH.
Qed.




Lemma quiet_ctxDone {A} (m : M A) g : quiet m -> ctxDone (snd (m g)) = ctxDone g.
Proof. intros H. destruct (H g) as (evs & _ & _ & C & _). exact C. Qed.





Lemma Inv_nothing_left fl infos b items s :
  1 <= GoroutineNum fl ->
  Inv fl infos b items s -> mainG s = MainExit -> toFetchInOrder s = [].
Proof.
  intros HN HI Hexit.
  assert (Hall : forall c, In c (consumers s) -> c = ConExit).
  { apply (inv_joined _ _ _ _ _ HI). rewrite Hexit. discriminate. }
  assert (Hsome : In ConExit (consumers s)).
  { pose proof (inv_workers _ _ _ _ _ HI) as Hw.
    destruct (consumers s) as [|c cs']; [cbn in Hw; lia|].
    rewrite (Hall c (or_introl eq_refl)). left. reflexivity. }
  destruct (inv_exit _ _ _ _ _ HI Hsome) as [Hcl Hbuf].
  apply (inv_prod _ _ _ _ _ HI) in Hcl.
  unfold toFetchInOrder. rewrite Hbuf, Hcl. reflexivity.
Qed.



Section Idle.

Variables (fl : Flags) (W : World) (infos : list RssInfo).
Variable b : tgbotapi.BotAPI.

Hypothesis Hlive : DebugMode fl = false.
Hypothesis Hnone : GoroutineNum fl = 0.
Hypothesis Hbot : NewBotAPI W (BotToken fl) = Ok b.

Local Abbreviation idleMeasure := (measure (fun _ : RssInfo => 0%nat)).

Lemma InvIdle_init : InvIdle b (initSys fl infos).
Proof.
  rewrite initSys_started by (rewrite Hnone; lia). rewrite Hnone.
  constructor; cbn; try reflexivity; try discriminate.
  - split; reflexivity.
  - split; reflexivity.
  - split; [discriminate|intros [c Hc]; discriminate].
  - intros H. contradiction.
Qed.

Ltac open_idle s HI :=
  destruct s as [g [ib icl] [tb tcl] pr cs w pu m cr];
  destruct HI as [Ia [Icp Icm] Ic Iw It Io If Ictx Im Ion Ib Icnt Is];
  cbn [crashed consumers wg infoChan tgChan producer pusher mainG globals
       closed buf] in *;
  subst cr cs w tb.

Ltac sys_fields :=
  cbn [crashed consumers wg infoChan tgChan producer pusher mainG globals
       closed buf].

Ltac sys_fields_in H :=
  cbn [crashed consumers wg infoChan tgChan producer pusher mainG globals
       closed buf] in H.

Ltac idle_field :=
  try solve [ assumption | discriminate | reflexivity
            | intros _; assumption | intros _; reflexivity
            | split; reflexivity | split; discriminate
            | split; first [assumption | reflexivity] ].

Lemma InvIdle_step a s s' :
  InvIdle b s -> step fl W a s = Some s' ->
  InvIdle b s' /\ (idleMeasure s' < idleMeasure s)%nat.
Proof.
  intros HI Hs. unfold step in Hs. destruct (exited s); [discriminate|].
  open_idle s HI.
  destruct a as [|i| |].
  - unfold InfoProducer_step in Hs. sys_fields_in Hs.
    destruct pr as [[|info rest]|]; [| |discriminate].
    + injection Hs as <-. split.
      * constructor; sys_fields; idle_field.
      * unfold measure. sys_fields. cbn [sumBy]. lia.
    + destruct (full _); [discriminate|]. injection Hs as <-. split.
      * constructor; sys_fields; idle_field.
      * unfold measure, descWeight. sys_fields.
        rewrite sumBy_app. cbn [sumBy]. lia.
  - unfold InfoComsumer_step in Hs. sys_fields_in Hs.
    destruct i; discriminate Hs.
  - unfold PushPost_step in Hs. sys_fields_in Hs.
    destruct pu as [|cnt|cnt|msg|msg];
      [| |discriminate|discriminate Icp|discriminate Icp].
    + rewrite (initBot_live fl W g b Hlive (Ion eq_refl) Hbot) in Hs.
      injection Hs as <-. split.
      * constructor; sys_fields;
          cbn [onceSet bot onceDone ctxDone fetches sends trace]; idle_field.
        -- split; [intros Hx; apply Ictx in Hx as [c Hx]; discriminate
                  |intros [c Hx]; discriminate].
        -- intros Hx. apply Im in Hx as [c Hx]. discriminate.
      * unfold measure. sys_fields. lia.
    + cbn [counterOf] in Icnt. subst cnt.
      assert (Hbt : bot g = Some b) by (apply Ib; discriminate).
      destruct tcl; [|discriminate].
      rewrite pushBeat_spec in Hs.
      rewrite Hbt in Hs. cbn [beatResult Z.eqb] in Hs.
      injection Hs as <-. split.
      * constructor; sys_fields; unfold done;
          cbn [snd afterSends bot onceDone ctxDone fetches sends trace];
          idle_field.
        -- split; [intros _; exists 0; reflexivity|reflexivity].
        -- intros _. exists 0. reflexivity.
        -- rewrite !sendTexts_app, beatEvents_texts, Is.
           cbn [beatTexts sendTexts Z.eqb app]. reflexivity.
      * unfold measure. sys_fields. lia.
  - unfold main_step in Hs. sys_fields_in Hs.
    unfold logPrintln, emit in Hs.
    destruct m; [| |discriminate|discriminate].
    + cbn [Z.eqb] in Hs.
      assert (Hopen : tcl = false) by (apply Io; reflexivity). subst tcl.
      injection Hs as <-. split.
      * constructor; sys_fields;
          cbn [bot onceDone ctxDone fetches sends trace]; idle_field.
        rewrite !sendTexts_snoc_log. exact Is.
      * unfold measure. sys_fields. lia.
    + destruct (ctxDone g) eqn:Hctx; [|discriminate].
      injection Hs as <-. split.
      * constructor; sys_fields;
          cbn [bot onceDone ctxDone fetches sends trace]; idle_field.
        -- split; [intros Hx; apply Io in Hx; discriminate|discriminate].
        -- intros _. apply Ictx. reflexivity.
        -- rewrite sendTexts_snoc_log. exact Is.
      * unfold measure. sys_fields. lia.
Qed.

Lemma InvIdle_run sched :
  forall s s',
    InvIdle b s -> run fl W sched s = Some s' ->
    InvIdle b s' /\ (List.length sched + idleMeasure s' <= idleMeasure s)%nat.
Proof.
  induction sched as [|a rest IH]; intros s s' HI Hr; cbn [run] in Hr.
  - injection Hr as <-. split; [exact HI|cbn; lia].
  - destruct (step fl W a s) as [s1|] eqn:Hs; [|discriminate].
    destruct (InvIdle_step a s s1 HI Hs) as [HI1 Hm1].
    destruct (IH s1 s' HI1 Hr) as [HI' Hm']. split; [exact HI'|].
    cbn [List.length]. lia.
Qed.

Lemma InvIdle_progress s :
  InvIdle b s -> finished s = false -> exists a s', step fl W a s = Some s'.
Proof.
  intros HI Hfin.
  assert (Hex : exited s = false).
  { unfold finished in Hfin. unfold exited.
    destruct (crashed s); [discriminate|].
    destruct (mainG s); (reflexivity || discriminate). }
  unfold step. rewrite Hex. clear Hex. unfold finished in Hfin.
  open_idle s HI.
  destruct pu as [|cnt|cnt|msg|msg];
    [| | |discriminate Icp|discriminate Icp].
  - exists APusher. unfold PushPost_step. sys_fields.
    rewrite (initBot_live fl W g b Hlive (Ion eq_refl) Hbot).
    eexists. reflexivity.
  - destruct tcl.
    + exists APusher. unfold PushPost_step. sys_fields.
      destruct (pushBeat fl W cnt g) as [[u|msg] g'];
        eexists; reflexivity.
    + exists AMain. unfold main_step. sys_fields.
      assert (Hm0 : m = MainWait) by (apply Io; reflexivity). subst m.
      eexists. reflexivity.
  - assert (Hctx : ctxDone g = true) by (apply Ictx; exists cnt; reflexivity).
    exists AMain. unfold main_step. sys_fields.
    destruct m.
    + cbn [Z.eqb]. destruct tcl; eexists; reflexivity.
    + rewrite Hctx. eexists. reflexivity.
    + discriminate Hfin.
    + discriminate Icm.
Qed.

End Idle.

Lemma sumBy_const {A} (c : nat) (l : list A) :
  sumBy (fun _ => c) l = (c * List.length l)%nat.
Proof.
  induction l as [|a l IH]; cbn [sumBy List.length]; [lia|]. rewrite IH. lia.
Qed.

(** X13: with no worker ([GoroutineNum] 0) a live run whose client
    is constructed ([NewBotAPI] succeeds) fetches nothing, however
    many subscriptions are configured: under every schedule no
    goroutine panics, a run that is not over can take a step, no run
    has more than 5 steps plus 5 per subscription, and when [main]
    returns the only message sent is the heartbeat. *)
Theorem no_worker_only_heartbeat
        (fl : Flags) (W : World) (infos : list RssInfo) (b : tgbotapi.BotAPI) :
  DebugMode fl = false ->
  GoroutineNum fl = 0 ->
  NewBotAPI W (BotToken fl) = Ok b ->
  forall sched s,
    run fl W sched (initSys fl infos) = Some s ->
    crashed s = None /\
    fetches (globals s) = 0%nat /\
    (List.length sched <= 5 + 5 * List.length infos)%nat /\
    (finished s = false -> exists a s', step fl W a s = Some s') /\
    (finished s = true -> sendTexts (trace (globals s)) = [beatText]).
Proof.
  intros Hlive Hnone Hbot sched s Hrun.
  destruct (InvIdle_run fl W b Hlive Hbot sched _ s
                        (InvIdle_init fl infos b Hnone) Hrun) as [HI Hlen].
  split; [apply (idle_alive _ _ HI)|].
  split; [apply (idle_fetches _ _ HI)|]. split; [|split].
  - assert (Hm0 : measure (fun _ : RssInfo => 0%nat) (initSys fl infos)
                  = (5 + 5 * List.length infos)%nat).
    { rewrite initSys_started by (rewrite Hnone; lia). rewrite Hnone.
      unfold measure.
      cbn [producer infoChan tgChan consumers pusher mainG buf sumBy
           Z.to_nat repeat List.length].
      rewrite (sumBy_ext
                 (fun i : RssInfo =>
                    S (descWeight (fun _ : RssInfo => 0%nat) i))
                 (fun _ => 5%nat)) by (intros i; reflexivity).
      rewrite sumBy_const. lia. }
    lia.
  - apply (InvIdle_progress fl W b Hlive Hbot s HI).
  - intros Hfin.
    assert (Hexit : mainG s = MainExit).
    { unfold finished in Hfin. rewrite (idle_alive _ _ HI) in Hfin.
      destruct (mainG s); (reflexivity || discriminate Hfin). }
    destruct (idle_main _ _ HI Hexit) as [cnt Hp].
    pose proof (idle_cnt _ _ HI) as Hc. rewrite Hp in Hc. cbn [counterOf] in Hc.
    subst cnt. rewrite (idle_sent _ _ HI), Hp. reflexivity.
Qed.

Lemma no_worker_only_heartbeat_witness :
  let fl := Sample.flags false 3 0 in
  let infos := [Sample.subA; Sample.subB] in
  let sched := schedule fl Sample.world 50 (initSys fl infos) in
  DebugMode fl = false /\
  GoroutineNum fl = 0 /\
  NewBotAPI Sample.world (BotToken fl) = Ok Sample.client /\
  exists s,
    run fl Sample.world sched (initSys fl infos) = Some s /\
    finished s = true /\
    sendTexts (trace (globals s)) = [beatText].
Proof.
  intros fl infos sched.
  assert (Hlive : DebugMode fl = false) by reflexivity.
  assert (Hnone : GoroutineNum fl = 0) by reflexivity.
  assert (Hbot : NewBotAPI Sample.world (BotToken fl) = Ok Sample.client)
    by reflexivity.
  repeat (split; [assumption|]).
  destruct (run fl Sample.world sched (initSys fl infos))
    as [s|] eqn:Hrun; [|vm_compute in Hrun; discriminate Hrun].
  exists s. split; [reflexivity|].
  assert (Hfin : finished s = true).
  { assert (Hf : option_map finished
                   (run fl Sample.world sched (initSys fl infos)) = Some true)
      by (vm_compute; reflexivity).
    rewrite Hrun in Hf. injection Hf as Hf. exact Hf. }
  split; [exact Hfin|].
  destruct (no_worker_only_heartbeat fl Sample.world infos Sample.client
                                     Hlive Hnone Hbot sched s Hrun)
    as (_ & _ & _ & _ & Hdone).
  exact (Hdone Hfin).
Defined.

Lemma countSends_logs evs logs :
  sendTexts logs = [] -> countSends (evs ++ logs) = countSends evs.
Proof.
  intros H. rewrite countSends_app, <- (sendTexts_length logs), H.
  cbn [List.length]. lia.
Qed.

Lemma fatal_some msg s : fatal msg s <> None.
Proof. unfold fatal. destruct (crashed s); discriminate. Qed.

Lemma InvDebug_init fl infos : InvDebug (initSys fl infos).
Proof.
  unfold initSys.
  destruct (wrap32 (GoroutineNum fl) <? 0);
    (constructor; cbn; try reflexivity; try discriminate;
     first [ intros msg [H|H]; discriminate H
           | split; [discriminate|intros [msg H]; discriminate H]
           | intros [msg H]; discriminate H ]).
Qed.

(** A step that leaves [PushPost], the client, the context and the
    sends alone keeps what holds of a debug run. *)
Lemma InvDebug_frame s s' :
  InvDebug s ->
  pusher s' = pusher s ->
  bot (globals s') = bot (globals s) ->
  ctxDone (globals s') = ctxDone (globals s) ->
  sendTexts (trace (globals s')) = sendTexts (trace (globals s)) ->
  (crashed s <> None -> crashed s' <> None) ->
  (mainG s' = MainExit ->
   mainG s = MainExit \/ ctxDone (globals s) = true) ->
  InvDebug s'.
Proof.
  intros [Db Dc Dp Dmsg Ds Dctx Dd Dm] Hp Hb Hc Ht Hcr Hm.
  constructor; rewrite ?Hp, ?Hb, ?Hc, ?Ht; try assumption.
  - intros Hex. apply Hcr, Dd, Hex.
  - intros Hx. destruct (Hm Hx) as [Hy|Hy]; [apply Dm, Hy|exact Hy].
Qed.

Lemma InvDebug_step fl W a s s' :
  DebugMode fl = true ->
  InvDebug s -> step fl W a s = Some s' -> InvDebug s'.
Proof.
  intros Hdebug HI Hs. unfold step in Hs.
  destruct (exited s); [discriminate|].
  destruct a as [|i| |].
  - apply (InvDebug_frame s s' HI); unfold InfoProducer_step in Hs;
      destruct (producer s) as [[|info rest]|]; try discriminate Hs;
      try (destruct (full _); [discriminate Hs|]);
      injection Hs as <-; cbn; auto.
  - unfold InfoComsumer_step in Hs.
    destruct (nth_error (consumers s) i) as [[|feeds| |msg|]|];
      try discriminate Hs.
    + destruct (buf (infoChan s)) as [|info ib'].
      * destruct (closed (infoChan s)); [|discriminate Hs].
        destruct (wrap32 (wg s - 1) <? 0); injection Hs as <-;
          apply (InvDebug_frame s _ HI); cbn; auto.
        intros _. apply fatal_some.
      * rewrite GetPostInfo_spec in Hs. injection Hs as <-.
        apply (InvDebug_frame s _ HI);
          cbn [crashed consumers wg infoChan tgChan producer pusher mainG
               globals closed buf afterFetch bot ctxDone trace]; auto.
        rewrite sendTexts_app, sendTexts_fetchLog. apply app_nil_r.
    + destruct feeds as [|feed rest].
      * injection Hs as <-. apply (InvDebug_frame s _ HI); cbn; auto.
      * destruct (closed (tgChan s)).
        -- injection Hs as <-. apply (InvDebug_frame s _ HI); cbn; auto.
        -- destruct (full _); [discriminate Hs|]. injection Hs as <-.
           apply (InvDebug_frame s _ HI); cbn; auto.
    + injection Hs as <-. apply (InvDebug_frame s _ HI); cbn; auto.
      intros _. apply fatal_some.
  - unfold PushPost_step in Hs.
    destruct s as [g ic [tb tcl] pr cs w pu m cr].
    destruct HI as [Db Dc Dp Dmsg Ds Dctx Dd Dm].
    cbn [crashed consumers wg infoChan tgChan producer pusher mainG globals
         closed buf] in *.
    destruct pu as [|cnt|cnt|msg|msg]; try discriminate Hs.
    + assert (Hinit : exists g',
                 onceLoader_Do (initBot fl W) g = (Val tt, g') /\
                 bot g' = bot g /\ ctxDone g' = ctxDone g /\
                 trace g' = trace g).
      { unfold onceLoader_Do, initBot. rewrite Hdebug. cbn [negb]. unfold ret.
        destruct (onceDone g); eexists; (split; [reflexivity|]);
          repeat split. }
      destruct Hinit as (g' & Hi & Hb' & Hc' & Ht'). rewrite Hi in Hs.
      injection Hs as <-.
      constructor;
        cbn [crashed consumers wg infoChan tgChan producer pusher mainG
             globals closed buf counterOf calmPusher];
        rewrite ?Hb', ?Hc', ?Ht'; try assumption; try reflexivity;
        try discriminate.
      * intros msg [H|H]; discriminate H.
      * split; [intros H; apply Dctx in H as [msg H]; discriminate H
               |intros [msg H]; discriminate H].
      * intros [msg H]. discriminate H.
    + cbn [counterOf] in Dc. subst cnt.
      destruct tb as [|feed tb'].
      * destruct tcl; [|discriminate Hs].
        rewrite pushBeat_spec, Db in Hs.
        cbn [beatResult beatEvents Z.eqb] in Hs. injection Hs as <-.
        constructor;
          cbn [crashed consumers wg infoChan tgChan producer pusher mainG
               globals closed buf counterOf calmPusher afterSends bot ctxDone
               trace] in *;
          try assumption; try reflexivity; try discriminate.
        -- intros msg [H|H]; [now injection H|discriminate H].
        -- rewrite sendTexts_app, Ds. reflexivity.
        -- split; [intros H; apply Dctx in H as [msg H]; discriminate H
                  |intros [msg H]; discriminate H].
        -- intros [msg H]. discriminate H.
      * rewrite (pushItem_debug fl W feed 0 g Hdebug) in Hs.
        injection Hs as <-.
        constructor;
          cbn [crashed consumers wg infoChan tgChan producer pusher mainG
               globals closed buf addTrace bot ctxDone trace counterOf
               calmPusher] in *;
          try assumption; try reflexivity; try discriminate.
        rewrite sendTexts_app, Ds. reflexivity.
    + injection Hs as <-.
      constructor; unfold done;
        cbn [crashed consumers wg infoChan tgChan producer pusher mainG
             globals closed buf snd bot ctxDone trace counterOf calmPusher]
          in *;
        try assumption; try reflexivity; try discriminate.
      * intros m0 [H|H]; [discriminate H|].
        injection H as <-. apply Dmsg. left. reflexivity.
      * rewrite sendTexts_app, Ds. reflexivity.
      * split; [intros _; exists msg; reflexivity|reflexivity].
      * intros _. apply fatal_some.
  - unfold main_step in Hs. unfold logPrintln, emit in Hs.
    destruct (mainG s) eqn:Hm; try discriminate Hs.
    + destruct (wg s =? 0); [|discriminate Hs].
      destruct (closed (tgChan s)); injection Hs as <-;
        apply (InvDebug_frame s _ HI);
        cbn [crashed consumers wg infoChan tgChan producer pusher mainG
             globals closed buf bot ctxDone trace]; auto;
        try discriminate;
        rewrite ?sendTexts_snoc_log; try reflexivity.
      intros _. apply fatal_some.
    + destruct (ctxDone (globals s)) eqn:Hctx; [|discriminate Hs].
      injection Hs as <-.
      apply (InvDebug_frame s _ HI);
        cbn [crashed consumers wg infoChan tgChan producer pusher mainG
             globals closed buf bot ctxDone trace]; auto.
      apply sendTexts_snoc_log.
Qed.

(** X14: a debug run can be over only through the panic of
    [PushPost] or of another goroutine. Under every schedule, on any
    subscriptions and with any number of workers: [PushPost] never
    returns; it panics with nothing but the nil-pointer dereference of
    the heartbeat send; no send is attempted until then, and that
    heartbeat on the nil client is the only one ever attempted; the
    context is cancelled exactly when the deferred [done] of the
    panicking [PushPost] has run; [main] gets past [<-ctx.Done()] and
    returns only after that; so whenever the process can be over, a
    panic is with the runtime. *)
Theorem debug_run_ends_only_by_panic
        (fl : Flags) (W : World) (infos : list RssInfo) :
  DebugMode fl = true ->
  forall sched s,
    run fl W sched (initSys fl infos) = Some s ->
    (forall cnt, pusher s <> PushExit cnt) /\
    (forall msg, pusher s = PushPanic msg \/ pusher s = PushDead msg ->
                 msg = nilDeref) /\
    sendTexts (trace (globals s))
    = (if calmPusher (pusher s) then [] else [beatText]) /\
    (ctxDone (globals s) = true <-> pusher s = PushDead nilDeref) /\
    (mainG s = MainExit -> pusher s = PushDead nilDeref) /\
    (finished s = true -> crashed s <> None).
Proof.
  intros Hdebug.
  assert (Hgen : forall sched s0 s,
             InvDebug s0 -> run fl W sched s0 = Some s -> InvDebug s).
  { induction sched as [|a rest IH]; intros s0 s H0 Hr; cbn [run] in Hr.
    - injection Hr as <-. exact H0.
    - destruct (step fl W a s0) as [s1|] eqn:Hs; [|discriminate].
      apply (IH s1 s); [|exact Hr].
      apply (InvDebug_step fl W a s0 s1 Hdebug H0 Hs). }
  intros sched s Hrun.
  destruct (Hgen sched _ s (InvDebug_init fl infos) Hrun)
    as [Db Dc Dp Dmsg Ds Dctx Dd Dm].
  assert (Hdead : ctxDone (globals s) = true <-> pusher s = PushDead nilDeref).
  { split.
    - intros H. apply Dctx in H as [msg H].
      rewrite H. f_equal. apply Dmsg. right. exact H.
    - intros H. apply Dctx. exists nilDeref. exact H. }
  split; [exact Dp|]. split; [exact Dmsg|]. split; [exact Ds|].
  split; [exact Hdead|]. split.
  - intros Hx. apply Hdead, Dm, Hx.
  - intros Hfin. unfold finished in Hfin.
    destruct (crashed s) eqn:Hcr; [discriminate|].
    destruct (mainG s) eqn:Hm; try discriminate Hfin.
    exfalso. apply (Dd (ex_intro _ nilDeref (proj1 Hdead (Dm eq_refl)))).
    reflexivity.
Qed.

Lemma debug_run_ends_only_by_panic_witness :
  let fl := Sample.debug in
  let infos := [Sample.subA; Sample.subB] in
  let sched := schedule fl Sample.world 100 (initSys fl infos) in
  DebugMode fl = true /\
  exists s,
    run fl Sample.world sched (initSys fl infos) = Some s /\
    mainG s = MainExit /\
    crashed s = Some nilDeref /\
    pusher s = PushDead nilDeref /\
    sendTexts (trace (globals s)) = [beatText].
Proof.
  intros fl infos sched.
  assert (Hdebug : DebugMode fl = true) by reflexivity.
  split; [exact Hdebug|].
  destruct (run fl Sample.world sched (initSys fl infos))
    as [s|] eqn:Hrun; [|vm_compute in Hrun; discriminate Hrun].
  exists s. split; [reflexivity|].
  assert (Hexit : mainG s = MainExit).
  { assert (Hf : option_map mainG
                   (run fl Sample.world sched (initSys fl infos))
                 = Some MainExit) by (vm_compute; reflexivity).
    rewrite Hrun in Hf. injection Hf as Hf. exact Hf. }
  assert (Hcr : crashed s = Some nilDeref).
  { assert (Hf : option_map crashed
                   (run fl Sample.world sched (initSys fl infos))
                 = Some (Some nilDeref)) by (vm_compute; reflexivity).
    rewrite Hrun in Hf. injection Hf as Hf. exact Hf. }
  destruct (debug_run_ends_only_by_panic fl Sample.world infos Hdebug sched s
                                         Hrun)
    as (_ & _ & Hsent & _ & Hmain & _).
  split; [exact Hexit|]. split; [exact Hcr|].
  pose proof (Hmain Hexit) as Hp. split; [exact Hp|].
  rewrite Hsent, Hp. reflexivity.
Defined.

Section SingleWorker.

Variables (fl : Flags) (W : World) (infos : list RssInfo).
Variables (b : tgbotapi.BotAPI) (items : RssInfo -> list gofeed.Item).

Hypothesis Hlive : DebugMode fl = false.
Hypothesis Hone : GoroutineNum fl = 1.
Hypothesis Hbot : NewBotAPI W (BotToken fl) = Ok b.
Hypothesis Hitems :
  forall info k, In info infos -> fetchItems fl W k info = items info.

Lemma InOrder_init : InOrder items infos (initSys fl infos).
Proof.
  exists []. unfold initSys, toFetchInOrder. rewrite Hone.
  cbn. split; reflexivity.
Qed.

Lemma InOrder_step a s s' :
  Inv fl infos b items s ->
  InOrder items infos s ->
  step fl W a s = Some s' ->
  InOrder items infos s'.
Proof.
  intros HI [sent [Ht Ho]] Hs.
  assert (Hworkers : 1 <= GoroutineNum fl < 2 ^ 31) by (rewrite Hone; lia).
  destruct (Inv_step fl W infos b items Hlive Hworkers Hbot Hitems a s s'
                     HI Hs) as [HI' _].
  pose proof (inv_calm _ _ _ _ _ HI') as (Hcc' & _ & _).
  unfold step in Hs.
  destruct (exited s); [discriminate|].
  destruct (inv_calm _ _ _ _ _ HI) as (Hcc & Hcp & Hcm).
  pose proof (inv_workers _ _ _ _ _ HI) as Hw.
  pose proof (inv_bot _ _ _ _ _ HI) as Hb.
  pose proof (inv_once _ _ _ _ _ HI) as Hon.
  pose proof (inv_infos _ _ _ _ _ HI) as Hin.
  destruct s as [g [ib icl] [tb tcl] pr cs w pu m cr].
  unfold InOrder, toFetchInOrder, toFetch in *.
  cbn [crashed consumers wg infoChan tgChan producer pusher mainG globals
       closed buf] in *.
  rewrite Hone in Hw.
  destruct cs as [|c [|c' cs']]; try discriminate Hw. clear Hw.
  destruct a as [|i| |].
  - unfold InfoProducer_step in Hs.
    cbn [crashed consumers wg infoChan tgChan producer pusher mainG globals
         closed buf] in Hs.
    destruct pr as [[|info rest]|]; [| |discriminate].
    + injection Hs as <-. exists sent. split; [exact Ht|exact Ho].
    + destruct (full _); [discriminate|]. injection Hs as <-.
      exists sent.
      cbn [crashed consumers wg infoChan tgChan producer pusher mainG globals
           closed buf].
      split; [exact Ht|]. rewrite <- Ho, <- app_assoc. reflexivity.
  - unfold InfoComsumer_step in Hs.
    cbn [crashed consumers wg infoChan tgChan producer pusher mainG globals
         closed buf] in Hs.
    destruct i as [|i]; [|destruct i; discriminate Hs].
    cbn [nth_error] in Hs.
    cbn [forallb] in Hcc. rewrite andb_true_r in Hcc.
    destruct c as [|feeds| |msg|];
      [| |discriminate|discriminate Hcc|discriminate Hcc].
    + destruct ib as [|info ib'].
      * destruct icl; [|discriminate].
        destruct (wrap32 (w - 1) <? 0); injection Hs as <-;
          exists sent; split; [exact Ht|exact Ho|exact Ht|exact Ho].
      * rewrite GetPostInfo_spec in Hs. injection Hs as <-.
        assert (Hinfo : In info infos).
        { apply Hin. apply in_or_app. right. left. reflexivity. }
        rewrite (Hitems info (fetches g) Hinfo).
        exists sent.
        cbn [crashed consumers wg infoChan tgChan producer pusher mainG
             globals closed buf afterFetch trace setNth flat_map pendingList].
        split.
        -- rewrite sendTexts_app, sendTexts_fetchLog, app_nil_r. exact Ht.
        -- rewrite <- Ho. cbn [flat_map pendingList app].
           rewrite app_nil_r. reflexivity.
    + destruct feeds as [|feed rest].
      * injection Hs as <-. exists sent. split; [exact Ht|exact Ho].
      * destruct tcl.
        -- injection Hs as <-. discriminate Hcc'.
        -- destruct (full _); [discriminate|]. injection Hs as <-.
           exists sent.
           cbn [crashed consumers wg infoChan tgChan producer pusher mainG
                globals closed buf setNth flat_map pendingList].
           split; [exact Ht|]. rewrite <- Ho.
           cbn [flat_map pendingList]. rewrite !app_nil_r, <- !app_assoc.
           reflexivity.
  - unfold PushPost_step in Hs.
    cbn [crashed consumers wg infoChan tgChan producer pusher mainG globals
         closed buf] in Hs.
    destruct pu as [|cnt|cnt|msg|msg];
      [| |discriminate|discriminate Hcp|discriminate Hcp].
    + rewrite (initBot_live fl W g b Hlive (Hon eq_refl) Hbot) in Hs.
      injection Hs as <-. exists sent. split; [exact Ht|exact Ho].
    + assert (Hbt : bot g = Some b) by (apply Hb; discriminate).
      destruct tb as [|feed tb'].
      * destruct tcl; [|discriminate].
        rewrite pushBeat_spec in Hs.
        rewrite Hbt in Hs. unfold beatResult in Hs.
        assert (Hr : (if cnt =? 0 then Val tt else Val tt) = Val tt)
          by (destruct (cnt =? 0); reflexivity).
        rewrite Hr in Hs. injection Hs as <-.
        exists sent. unfold done.
        cbn [crashed consumers wg infoChan tgChan producer pusher mainG
             globals closed buf snd afterSends trace].
        split; [|exact Ho].
        rewrite !sendTexts_app, beatEvents_texts, Ht.
        cbn [beatTexts sendTexts]. now rewrite !app_nil_r.
      * rewrite (pushItem_live fl W feed cnt g b Hlive Hbt) in Hs.
        injection Hs as <-. exists (sent ++ [feed]).
        cbn [crashed consumers wg infoChan tgChan producer pusher mainG
             globals closed buf afterSends trace beatTexts] in *.
        split.
        -- rewrite sendTexts_app.
           destruct (itemEvents_sends W b (ChannelID fl) (sends g) cnt feed)
             as [-> _].
           rewrite Ht, map_app, !app_nil_r. reflexivity.
        -- rewrite <- Ho, <- !app_assoc. reflexivity.
  - unfold main_step in Hs.
    cbn [crashed consumers wg infoChan tgChan producer pusher mainG globals
         closed buf] in Hs.
    unfold logPrintln, emit in Hs.
    destruct m; [| |discriminate|discriminate].
    + destruct (w =? 0); [|discriminate].
      destruct tcl; injection Hs as <-; exists sent;
        cbn [crashed consumers wg infoChan tgChan producer pusher mainG
             globals closed buf trace];
        (split; [|exact Ho]);
        rewrite ?sendTexts_snoc_log; exact Ht.
    + destruct (ctxDone g); [|discriminate]. injection Hs as <-.
      exists sent.
      cbn [crashed consumers wg infoChan tgChan producer pusher mainG
           globals closed buf trace].
      split; [|exact Ho]. rewrite sendTexts_snoc_log. exact Ht.
Qed.

Lemma InOrder_run sched :
  forall s s',
    Inv fl infos b items s -> InOrder items infos s ->
    run fl W sched s = Some s' -> InOrder items infos s'.
Proof.
  assert (Hworkers : 1 <= GoroutineNum fl < 2 ^ 31) by (rewrite Hone; lia).
  induction sched as [|a rest IH]; intros s s' HI HO Hr; cbn [run] in Hr.
  - injection Hr as <-. exact HO.
  - destruct (step fl W a s) as [s1|] eqn:Hs; [|discriminate].
    apply (IH s1 s'); [|apply (InOrder_step a s s1 HI HO Hs)|exact Hr].
    apply (Inv_step fl W infos b items Hlive Hworkers Hbot Hitems a s s1 HI Hs).
Qed.

End SingleWorker.

(** X15: with a single worker the order of delivery is determined:
    under every schedule, when a live run whose client is constructed
    ([NewBotAPI] succeeds) is over, the messages sent are those of the
    first subscription's entries in feed order, then those of the
    second, and so on, followed by the heartbeat exactly when the
    counter is 0. *)
Theorem single_worker_delivers_in_order
        (fl : Flags) (W : World) (infos : list RssInfo)
        (b : tgbotapi.BotAPI) (items : RssInfo -> list gofeed.Item) :
  DebugMode fl = false ->
  GoroutineNum fl = 1 ->
  NewBotAPI W (BotToken fl) = Ok b ->
  (forall info g, In info infos ->
                  fst (GetPostInfo fl W info g) = Val (items info)) ->
  forall sched s,
    run fl W sched (initSys fl infos) = Some s ->
    finished s = true ->
    sendTexts (trace (globals s))
    = map makeDisplayMsg (flat_map items infos)
      ++ (if wrap64 (Z.of_nat (List.length (flat_map items infos))) =? 0
          then [beatText] else []).
Proof.
  intros Hlive Hone Hbot Hfetch sched s Hrun Hfin.
  assert (Hworkers : 1 <= GoroutineNum fl < 2 ^ 31) by (rewrite Hone; lia).
  assert (Hitems : forall info k,
             In info infos -> fetchItems fl W k info = items info).
  { intros info k Hin.
    specialize (Hfetch info (mkGlobals None false false k 0 []) Hin).
    rewrite GetPostInfo_spec in Hfetch. cbn [fst fetches] in Hfetch.
    now injection Hfetch. }
  pose proof (Inv_init fl infos b items Hworkers) as HI0.
  destruct (Inv_run fl W infos b items Hlive Hworkers Hbot Hitems
                    sched _ s HI0 Hrun) as [HI _].
  pose proof (InOrder_run fl W infos b items Hlive Hone Hbot Hitems
                          sched _ s HI0 (InOrder_init fl infos items Hone)
                          Hrun) as [sent [Ht Ho]].
  assert (Hexit : mainG s = MainExit).
  { unfold finished in Hfin. rewrite (inv_alive _ _ _ _ _ HI) in Hfin.
    destruct (mainG s); (reflexivity || discriminate Hfin). }
  destruct (Inv_final fl infos b items Hworkers s HI Hexit)
    as (sent' & Hperm & Hp & _).
  pose proof (Inv_nothing_left fl infos b items s ltac:(lia) HI Hexit)
    as Hnone.
  destruct (inv_main _ _ _ _ _ HI Hexit) as [cnt Hcnt].
  destruct (inv_drained _ _ _ _ _ HI cnt Hcnt) as [_ Htb].
  assert (Hall : forall c, In c (consumers s) -> c = ConExit).
  { apply (inv_joined _ _ _ _ _ HI). rewrite Hexit. discriminate. }
  destruct (all_exit_sums _ Hall) as (Hpend & _ & _).
  rewrite Htb, Hpend, Hnone in Ho. cbn [flat_map app] in Ho.
  rewrite app_nil_r in Ho. subst sent.
  rewrite Ht, Hp. cbn [beatTexts].
  apply Permutation_length in Hperm. rewrite Hperm. reflexivity.
Qed.

Lemma single_worker_delivers_in_order_witness :
  let fl := Sample.flags false 3 1 in
  let infos := [Sample.subB; Sample.subA; Sample.subB] in
  let items := fun info : RssInfo =>
                 if String.eqb (Url info) (Url Sample.subA) then []
                 else [Sample.fresh1; Sample.fresh2] in
  let sched := schedule fl Sample.world 200 (initSys fl infos) in
  DebugMode fl = false /\
  GoroutineNum fl = 1 /\
  NewBotAPI Sample.world (BotToken fl) = Ok Sample.client /\
  (forall info g, In info infos ->
                  fst (GetPostInfo fl Sample.world info g) = Val (items info)) /\
  exists s,
    run fl Sample.world sched (initSys fl infos) = Some s /\
    finished s = true /\
    sendTexts (trace (globals s))
    = map makeDisplayMsg
          [Sample.fresh1; Sample.fresh2; Sample.fresh1; Sample.fresh2].
Proof.
  intros fl infos items sched.
  assert (Hlive : DebugMode fl = false) by reflexivity.
  assert (Hone : GoroutineNum fl = 1) by reflexivity.
  assert (Hbot : NewBotAPI Sample.world (BotToken fl) = Ok Sample.client)
    by reflexivity.
  assert (Hfetch : forall info g,
             In info infos ->
             fst (GetPostInfo fl Sample.world info g) = Val (items info)).
  { intros info g [<-|[<-|[<-|[]]]]; rewrite GetPostInfo_spec; cbn [fst];
      vm_compute; reflexivity. }
  repeat (split; [assumption|]).
  destruct (run fl Sample.world sched (initSys fl infos))
    as [s|] eqn:Hrun; [|vm_compute in Hrun; discriminate Hrun].
  exists s. split; [reflexivity|].
  assert (Hfin : finished s = true).
  { assert (Hf : option_map finished
                   (run fl Sample.world sched (initSys fl infos)) = Some true)
      by (vm_compute; reflexivity).
    rewrite Hrun in Hf. injection Hf as Hf. exact Hf. }
  split; [exact Hfin|].
  rewrite (single_worker_delivers_in_order fl Sample.world infos Sample.client
                                           items Hlive Hone Hbot Hfetch
                                           sched s Hrun Hfin).
  vm_compute. reflexivity.
Defined.

(** X16: when no subscription gives an entry (or none is configured),
    a live run with at least one worker sends exactly one message, the
    heartbeat, under every schedule. *)
Theorem empty_run_sends_one_heartbeat
        (fl : Flags) (W : World) (infos : list RssInfo) (b : tgbotapi.BotAPI) :
  DebugMode fl = false ->
  1 <= GoroutineNum fl < 2 ^ 31 ->
  NewBotAPI W (BotToken fl) = Ok b ->
  (forall info g, In info infos -> fst (GetPostInfo fl W info g) = Val []) ->
  forall sched s,
    run fl W sched (initSys fl infos) = Some s ->
    finished s = true ->
    sendTexts (trace (globals s)) = [beatText].
Proof.
  intros Hlive Hworkers Hbot Hfetch sched s Hrun Hfin.
  assert (Hitems : forall info k,
             In info infos -> fetchItems fl W k info = []).
  { intros info k Hin.
    specialize (Hfetch info (mkGlobals None false false k 0 []) Hin).
    rewrite GetPostInfo_spec in Hfetch. cbn [fst fetches] in Hfetch.
    now injection Hfetch. }
  destruct (Inv_run fl W infos b (fun _ => []) Hlive Hworkers Hbot Hitems
                    sched _ s (Inv_init fl infos b (fun _ => []) Hworkers)
                    Hrun) as [HI _].
  assert (Hexit : mainG s = MainExit).
  { unfold finished in Hfin. rewrite (inv_alive _ _ _ _ _ HI) in Hfin.
    destruct (mainG s); (reflexivity || discriminate Hfin). }
  destruct (Inv_final fl infos b (fun _ => []) Hworkers s HI Hexit)
    as (sent & Hperm & Hp & Htexts).
  assert (Hnil : flat_map (fun _ : RssInfo => @nil gofeed.Item) infos = []).
  { clear. induction infos as [|i rest IH]; [reflexivity|exact IH]. }
  rewrite Hnil in Hperm. apply Permutation_sym, Permutation_nil in Hperm.
  subst sent.
  rewrite Htexts, Hp. reflexivity.
Qed.

Lemma empty_run_sends_one_heartbeat_witness :
  let fl := Sample.live in
  let infos := [Sample.subA; Sample.subA] in
  let sched := schedule fl Sample.world 100 (initSys fl infos) in
  DebugMode fl = false /\
  1 <= GoroutineNum fl < 2 ^ 31 /\
  NewBotAPI Sample.world (BotToken fl) = Ok Sample.client /\
  (forall info g, In info infos ->
                  fst (GetPostInfo fl Sample.world info g) = Val []) /\
  exists s,
    run fl Sample.world sched (initSys fl infos) = Some s /\
    finished s = true /\
    sendTexts (trace (globals s)) = [beatText].
Proof.
  intros fl infos sched.
  assert (Hlive : DebugMode fl = false) by reflexivity.
  assert (Hworkers : 1 <= GoroutineNum fl < 2 ^ 31) by (cbn; lia).
  assert (Hbot : NewBotAPI Sample.world (BotToken fl) = Ok Sample.client)
    by reflexivity.
  assert (Hfetch : forall info g,
             In info infos ->
             fst (GetPostInfo fl Sample.world info g) = Val []).
  { intros info g [<-|[<-|[]]]; rewrite GetPostInfo_spec; cbn [fst];
      vm_compute; reflexivity. }
  repeat (split; [assumption|]).
  destruct (run fl Sample.world sched (initSys fl infos))
    as [s|] eqn:Hrun; [|vm_compute in Hrun; discriminate Hrun].
  exists s. split; [reflexivity|].
  assert (Hfin : finished s = true).
  { assert (Hf : option_map finished
                   (run fl Sample.world sched (initSys fl infos)) = Some true)
      by (vm_compute; reflexivity).
    rewrite Hrun in Hf. injection Hf as Hf. exact Hf. }
  split; [exact Hfin|].
  apply (empty_run_sends_one_heartbeat fl Sample.world infos Sample.client
                                       Hlive Hworkers Hbot Hfetch
                                       sched s Hrun Hfin).
Defined.
